(** * rapidcheck: the generator combinators of [rapidcheck/gen/Generator.hpp]

    A shallow embedding of the combinator library: the implicit generation
    parameters are passed as a record, the random engine and the rose tree
    are threaded as state, exceptions are a result constructor, and shrink
    iterators are the finite sequences of candidates they yield. *)

From Stdlib Require Import ZArith List String Ascii Bool Lia Arith.
From Stdlib Require Import DecimalString.
From Stdlib Require Import Floats.SpecFloat.
From Equations Require Import Equations.
Import ListNotations.

Open Scope string_scope.
Open Scope list_scope.
Open Scope Z_scope.

Ltac Zify.zify_post_hook ::= Z.div_mod_to_equations.

(** A value together with the equation that names it, for the case analyses
    of functions defined by well-founded recursion. *)
Definition inspect {A} (a : A) : {b : A | a = b} := exist _ a eq_refl.

(** ** Machine integers

    A C++ integer type is its width and signedness; values are integers of
    [Z] and every operation writes its wrap-around out. *)

Record IntType := { bits : Z; is_signed : bool }.

Definition to_unsigned (w : Z) (z : Z) : Z := z mod 2 ^ w.
Definition to_signed (w : Z) (z : Z) : Z :=
  (z + 2 ^ (w - 1)) mod 2 ^ w - 2 ^ (w - 1).

(** Conversion of an integer to the type [t]. *)
Definition convert (t : IntType) (z : Z) : Z :=
  if is_signed t then to_signed (bits t) z else to_unsigned (bits t) z.

Definition type_min (t : IntType) : Z :=
  if is_signed t then - 2 ^ (bits t - 1) else 0.
Definition type_max (t : IntType) : Z :=
  if is_signed t then 2 ^ (bits t - 1) - 1 else 2 ^ bits t - 1.
Definition in_range (t : IntType) (z : Z) : Prop :=
  type_min t <= z <= type_max t.

Definition int_t : IntType := {| bits := 32; is_signed := true |}.
Definition uint8_t : IntType := {| bits := 8; is_signed := false |}.
Definition size_t : IntType := {| bits := 64; is_signed := false |}.
Definition make_unsigned (t : IntType) : IntType :=
  {| bits := bits t; is_signed := false |}.

(** The widths of the integer types. *)
Definition standard_width (t : IntType) : Prop :=
  bits t = 8 \/ bits t = 16 \/ bits t = 32 \/ bits t = 64.

(** [int] arithmetic. *)
Definition int_add (a b : Z) : Z := convert int_t (a + b).
Definition int_sub (a b : Z) : Z := convert int_t (a - b).

(** Integral promotion and the usual arithmetic conversions of a binary
    operator: operands narrower than [int] are computed in [int]; of two
    operands of equal signedness the wider type wins; otherwise the unsigned
    type wins unless the signed one is strictly wider. *)
Definition promote (t : IntType) : IntType :=
  if bits t <? bits int_t then int_t else t.

Definition usual_arithmetic_conversions (a b : IntType) : IntType :=
  let a := promote a in
  let b := promote b in
  if Bool.eqb (is_signed a) (is_signed b)
  then (if bits a <? bits b then b else a)
  else if is_signed a
       then (if bits a <=? bits b then b else a)
       else (if bits b <=? bits a then a else b).

(** [x - y], [x % y] and [x + y] for operands of the types [tx] and [ty]; the
    result has the type [usual_arithmetic_conversions tx ty]. *)
Definition c_sub (tx : IntType) (x : Z) (ty : IntType) (y : Z) : Z :=
  let t := usual_arithmetic_conversions tx ty in
  convert t (convert t x - convert t y).
Definition c_rem (tx : IntType) (x : Z) (ty : IntType) (y : Z) : Z :=
  let t := usual_arithmetic_conversions tx ty in
  convert t (Z.rem (convert t x) (convert t y)).
Definition c_add (tx : IntType) (x : Z) (ty : IntType) (y : Z) : Z :=
  let t := usual_arithmetic_conversions tx ty in
  convert t (convert t x + convert t y).
(** [x < y]: the operands are compared in the common type. *)
Definition c_lt (tx : IntType) (x : Z) (ty : IntType) (y : Z) : bool :=
  let t := usual_arithmetic_conversions tx ty in
  convert t (convert tx x) <? convert t (convert ty y).

(** [std::to_string] of an integer. *)
Definition to_string (z : Z) : string := NilZero.string_of_int (Z.to_int z).

(** ** [double]

    IEEE 754 binary64 after the specification of the Standard Library. *)
Definition double : Type := spec_float.
Definition double_prec : Z := 53.
Definition double_emax : Z := 1024.

(** Conversion of an [int] to [double]. *)
Definition double_of_int (z : Z) : double :=
  binary_normalize double_prec double_emax z 0 false.
Definition double_mul (x y : double) : double :=
  SFmul double_prec double_emax x y.

(** The integer part of a finite [double], rounded toward zero. *)
Definition double_trunc (d : double) : option Z :=
  match d with
  | S754_zero _ => Some 0
  | S754_finite sign m e =>
      let magnitude :=
        if 0 <=? e then Z.pos m * 2 ^ e else Z.pos m / 2 ^ (- e) in
      Some (if sign then - magnitude else magnitude)
  | S754_infinity _ | S754_nan => None
  end.

(** Conversion of a [double] to [int]: the fractional part is discarded.
    Where the integer part is not an [int] (or there is none) the language
    leaves the conversion undefined; the model returns what the conversion
    instruction of x86 does, the smallest [int]. *)
Definition int_of_double (d : double) : Z :=
  match double_trunc d with
  | Some z =>
      if (type_min int_t <=? z) && (z <=? type_max int_t)
      then z else type_min int_t
  | None => type_min int_t
  end.

(** The exact value of a finite [double] is [double_num d / double_den d]. *)
Definition double_num (d : double) : Z :=
  match d with
  | S754_finite sign m e =>
      let n := if 0 <=? e then Z.pos m * 2 ^ e else Z.pos m in
      if sign then - n else n
  | _ => 0
  end.
Definition double_den (d : double) : Z :=
  match d with
  | S754_finite _ _ e => if 0 <=? e then 1 else 2 ^ (- e)
  | _ => 1
  end.

(** [n] is an integer nearest to the value of [d]. *)
Definition nearest_integer (d : double) (n : Z) : Prop :=
  forall k : Z,
    Z.abs (n * double_den d - double_num d)
    <= Z.abs (k * double_den d - double_num d).

(** [n] is the value of [d] without its fractional part. *)
Definition integer_part (d : double) (n : Z) : Prop :=
  Z.abs n * double_den d <= Z.abs (double_num d)
  /\ Z.abs (double_num d) < (Z.abs n + 1) * double_den d
  /\ 0 <= n * double_num d.

(** ** Results and exceptions *)

Inductive Exception : Type :=
| GenerationFailure (what : string)
| OtherException (what : string).

Inductive Result (T : Type) : Type :=
| Returned (value : T)
| Thrown (e : Exception).
Arguments Returned {T} value.
Arguments Thrown {T} e.

(** ** Shrink iterators

    The [shrink] namespace is not part of Generator.hpp.  An iterator is
    the finite sequence of the candidates it yields; [removeChunks] is left
    to the container type. *)
Module shrink.

Definition IteratorUP (T : Type) : Type := list T.

(** Modelled from the spec: [shrink::nothing] is absent from the header; it
    is the empty sequence. *)
Definition nothing {T} : IteratorUP T := [].

(** Modelled from the spec: [shrink::constant] is absent from the header; it
    yields [xs] in order, once. *)
Definition constant {T} (xs : list T) : IteratorUP T := xs.

(** Modelled from the spec: [shrink::map] is absent from the header; it
    applies [f] to each element. *)
Definition map {T U} (it : IteratorUP T) (f : T -> U) : IteratorUP U :=
  List.map f it.

(** Modelled from the spec: [shrink::sequentially] is absent from the
    header; it yields all of [a], then all of [b]. *)
Definition sequentially {T} (a b : IteratorUP T) : IteratorUP T := a ++ b.

(** The sequence [xs] with position [i] replaced by [y]. *)
Definition replace_at {A} (xs : list A) (i : nat) (y : A) : list A :=
  firstn i xs ++ y :: skipn (S i) xs.

(** Modelled from the spec: [shrink::eachElement] is absent from the header;
    for each position [i] of [xs] in order and each [y] of [per xs_i] it
    yields [xs] with position [i] replaced by [y], position [i] being
    exhausted before [i + 1]. *)
Definition eachElement {A} (xs : list A) (per : A -> IteratorUP A)
  : IteratorUP (list A) :=
  List.flat_map
    (fun i =>
       match nth_error xs i with
       | Some x => List.map (replace_at xs i) (per x)
       | None => []
       end)
    (seq 0 (List.length xs)).

End shrink.

(** ** The [switch] of [Character::shrink]

    A [switch] body is the sequence of its labelled statements in source
    order.  Control enters at the first [case] label equal to the value, at
    [default] when there is none, and runs every statement from there to the
    end of the body: no statement of this body is a [break]. *)
Inductive Label : Type :=
| case (c : Z)
| default.

Definition label_matches (value : Z) (l : Label) : bool :=
  match l with
  | case c => value =? c
  | default => false
  end.
Definition is_default (l : Label) : bool :=
  match l with
  | default => true
  | case _ => false
  end.

Fixpoint enter_at {S} (here : Label -> bool) (body : list (Label * S))
  : option (list S) :=
  match body with
  | [] => None
  | (l, st) :: rest =>
      if here l then Some (st :: List.map snd rest) else enter_at here rest
  end.

Definition switch {S} (value : Z) (body : list (Label * S)) : list S :=
  match enter_at (label_matches value) body with
  | Some statements => statements
  | None =>
      match enter_at is_default body with
      | Some statements => statements
      | None => []
      end
  end.

(** The code of a character literal. *)
Definition chr (c : ascii) : Z := Z.of_N (N_of_ascii c).

(** A statement of the body acts on the vector [chars]. *)
Definition insert_begin (c : ascii) (chars : list Z) : list Z :=
  chr c :: chars.
Definition empty_statement (chars : list Z) : list Z := chars.

Definition Character_shrink_body : list (Label * (list Z -> list Z)) :=
  [ (default, insert_begin "3");
    (case (chr "3"), insert_begin "2");
    (case (chr "2"), insert_begin "1");
    (case (chr "1"), insert_begin "C");
    (case (chr "C"), insert_begin "B");
    (case (chr "B"), insert_begin "A");
    (case (chr "A"), insert_begin "c");
    (case (chr "c"), insert_begin "b");
    (case (chr "b"), insert_begin "a");
    (case (chr "a"), empty_statement) ]%char.

(** [Character<T>::shrink]; a value of the character type [T] is its
    code. *)
Definition Character_shrink (value : Z) : shrink.IteratorUP Z :=
  let chars :=
    fold_left (fun chars statement => statement chars)
              (switch value Character_shrink_body) [] in
  shrink.constant chars.



(** ** Type traits *)

(** [detail::IsCopyConstructible<T>], the trait the shrink functions dispatch
    on. *)
Class IsCopyConstructible (T : Type) : Type := is_copy_constructible : bool.
Arguments is_copy_constructible T {_}.

Section Rapidcheck.

(** ** What the header takes from the rest of the library *)

(** The state of a [detail::RandomEngine]. *)
Variable RandomEngine : Type.

(** A [detail::RoseNode] handle and the nodes of the tree it points
    into. *)
Variable RoseNode : Type.
Variable RoseTree : Type.

(** ** The generation context

    The implicit parameters [param::Size], [param::NoShrink] and
    [param::CurrentNode].  [ImplicitParam<P>::let] binds a value until the
    end of the enclosing scope: the callee receives the updated record and
    the caller keeps its own.  [param::RandomEngine] is a pointer to an
    engine; the engine it points to is part of the state. *)
Record Params := {
  param_Size : Z;
  param_NoShrink : bool;
  param_CurrentNode : option RoseNode
}.

Definition let_Size (sz : Z) (p : Params) : Params :=
  {| param_Size := sz;
     param_NoShrink := param_NoShrink p;
     param_CurrentNode := param_CurrentNode p |}.
Definition let_NoShrink (b : bool) (p : Params) : Params :=
  {| param_Size := param_Size p;
     param_NoShrink := b;
     param_CurrentNode := param_CurrentNode p |}.

Record State := {
  engine : RandomEngine;
  tree : RoseTree
}.

(** A computation that reads the parameters, mutates the state and returns
    or throws. *)
Definition Gen (T : Type) : Type := Params -> State -> Result T * State.

Definition ret {T} (x : T) : Gen T := fun _ s => (Returned x, s).
Definition throw {T} (e : Exception) : Gen T := fun _ s => (Thrown e, s).
Definition bind {T U} (m : Gen T) (k : T -> Gen U) : Gen U :=
  fun p s =>
    match m p s with
    | (Returned x, s') => k x p s'
    | (Thrown e, s') => (Thrown e, s')
    end.
Definition scoped {T} (f : Params -> Params) (m : Gen T) : Gen T :=
  fun p s => m (f p) s.

Notation "x <- m ;; k" := (bind m (fun x => k))
  (at level 61, m at next level, right associativity).

(** [gen::currentSize()]. *)
Definition currentSize : Gen Z := fun p s => (Returned (param_Size p), s).

(** ** Generators *)

Record Generator (T : Type) : Type := {
  generate : Gen T;
  shrink : T -> shrink.IteratorUP T
}.
#[global] Arguments generate {T} _.
#[global] Arguments shrink {T} _.

(** [Generator<T>::shrink], the default every generator inherits. *)
Definition Generator_shrink {T} (value : T) : shrink.IteratorUP T :=
  shrink.nothing.

(** [RoseNode::pick], the draw through the current rose node. *)
Variable RoseNode_pick : forall T, RoseNode -> Generator T -> Gen T.

(** [detail::pick], also [Generator<T>::operator*]. *)
Definition pick {T} (generator : Generator T) : Gen T :=
  fun p s =>
    match param_CurrentNode p with
    | Some currentNode => RoseNode_pick T currentNode generator p s
    | None => generate generator p s
    end.

(** [Resize<Gen>]. *)
Definition Resize {T} (m_size : Z) (m_generator : Generator T)
  : Generator T :=
  {| generate := scoped (let_Size m_size) (generate m_generator);
     shrink := fun value => shrink m_generator value |}.
Definition resize {T} (size : Z) (gen : Generator T) := Resize size gen.

(** [NoShrink<Gen>]: it overrides [param::NoShrink] and does not implement
    [shrink]. *)
Definition NoShrink {T} (m_generator : Generator T) : Generator T :=
  {| generate := scoped (let_NoShrink true) (generate m_generator);
     shrink := Generator_shrink |}.
Definition noShrink {T} (generator : Generator T) := NoShrink generator.

(** ** [SuchThat<Gen, Predicate>] *)
Section SuchThat.
Context {T : Type} (m_generator : Generator T) (m_predicate : T -> bool).

Definition gave_up : Exception :=
  GenerationFailure
    "Gave up trying to generate value satisfying predicate".

(** The number of further size increments the loop can make before
    [(size - startSize) > 100] holds. *)
Definition SuchThat_variant (startSize size : Z) : nat :=
  Z.to_nat (to_unsigned 32 (100 - int_sub size startSize)).

(** The [while (true)] loop of [SuchThat::generate], from the state in
    which the local [size] has the given value. *)
Equations? SuchThat_loop (startSize : Z) (p : Params) (size : Z)
           (s : State) : Result T * State
  by wf (SuchThat_variant startSize size) lt :=
  SuchThat_loop startSize p size s
    with inspect (pick (noShrink (resize size m_generator)) p s) := {
    | exist _ (Thrown e, s') _ := (Thrown e, s')
    | exist _ (Returned x, s') _ with m_predicate x := {
      | true := (Returned x, s')
      | false
          with inspect (int_sub (int_add size 1) startSize >? 100) := {
        | exist _ true _ := (Thrown gave_up, s')
        | exist _ false _ :=
            SuchThat_loop startSize p (int_add size 1) s' } } }.
Proof.
  unfold SuchThat_variant, int_sub, int_add, convert, to_signed,
    to_unsigned in e0 |- *.
  cbn [is_signed bits int_t] in e0 |- *.
  change (2 ^ (32 - 1)) with 2147483648 in e0 |- *.
  change (2 ^ 32) with 4294967296 in e0 |- *.
  rewrite Z.gtb_ltb, Z.ltb_ge in e0.
  apply Z2Nat.inj_lt; lia.
Qed.

Definition SuchThat : Generator T :=
  {| generate := fun p s => SuchThat_loop (param_Size p) p (param_Size p) s;
     shrink := Generator_shrink |}.

End SuchThat.

(** [Constant<T>]. *)
Definition Constant {T} (m_value : T) : Generator T :=
  {| generate := ret m_value;
     shrink := Generator_shrink |}.
Definition constant {T} (value : T) := Constant value.

(** [Lambda<Callable>]. *)
Definition Lambda {T} (m_callable : Gen T) : Generator T :=
  {| generate := m_callable;
     shrink := Generator_shrink |}.
Definition lambda {T} (callable : Gen T) := Lambda callable.

(** ** [Ranged<T>] *)

(** The nominal size [gen::kNominalSize] and the generators
    [Arbitrary<T>] of the integer types, both declared outside the
    header. *)
Variable kNominalSize : Z.
Variable Arbitrary : IntType -> Generator Z.
Definition arbitrary (t : IntType) : Generator Z := Arbitrary t.

Definition invalid_range (m_min m_max : Z) : Exception :=
  GenerationFailure
    ("Invalid range [" ++ to_string m_min
       ++ ", " ++ to_string m_max ++ ")").

Definition Ranged_generate (T : IntType) (m_min m_max : Z) : Gen Z :=
  if m_max <? m_min then throw (invalid_range m_min m_max)
  else if m_max =? m_min then ret m_max
  else
    let Uint := make_unsigned T in
    value <- pick (noShrink (resize kNominalSize (arbitrary Uint))) ;;
    let width := c_sub T m_max T m_min in
    let offset := c_rem Uint value (promote T) width in
    let result :=
      c_add T m_min (usual_arithmetic_conversions Uint (promote T)) offset in
    ret (convert T result).

Definition Ranged (T : IntType) (m_min m_max : Z) : Generator Z :=
  {| generate := Ranged_generate T m_min m_max;
     shrink := Generator_shrink |}.
Definition ranged (T : IntType) (min max : Z) := Ranged T min max.

(** ** [Scale<Gen>] *)
Definition Scale {T} (m_scale : double) (m_generator : Generator T)
  : Generator T :=
  {| generate := fun p s =>
       let size :=
         int_of_double (double_mul (double_of_int (param_Size p)) m_scale) in
       scoped (let_Size size) (generate m_generator) p s;
     shrink := fun value => shrink m_generator value |}.
Definition scale {T} (scale : double) (gen : Generator T) := Scale scale gen.

(** ** [Vector<Container, Gen>] and [Collection<Container, Gen>]

    A container is the sequence of its elements.  The container type
    supplies its copy-constructibility, its
    [detail::CollectionBuilder<Container>] (the collection built so far,
    and [add], which returns whether the element was taken) and
    [shrink::removeChunks]. *)
Section Containers.
Context {A : Type}.
Local Abbreviation Container := (list A).
Context {Container_copy : IsCopyConstructible Container}.
Variable CollectionBuilder_add : Container -> A -> bool * Container.
Variable m_generator : Generator A.

(** [Vector::shrink]. *)
Definition Vector_shrink (value : Container)
  : shrink.IteratorUP Container :=
  if is_copy_constructible Container
  then shrink.eachElement value (fun element => shrink m_generator element)
  else shrink.nothing.

(** The variant of the loop of [Collection::generate]: the [int] counter
    counts up and the loop ends at the latest when it holds [-1]. *)
Definition Collection_variant (i : Z) : nat :=
  Z.to_nat (2 ^ 32 - 1 - to_unsigned 32 i).

(** The loop [for (int i = 0; i < size; i++)] whose body adds a pick of
    [noShrink(m_generator)] to the builder, from the state in which [i]
    has the given value. *)
Equations? Collection_loop (p : Params) (size : Z) (i : Z)
           (builder : Container) (s : State) : Result Container * State
  by wf (Collection_variant i) lt :=
  Collection_loop p size i builder s
    with inspect (c_lt int_t i size_t size) := {
    | exist _ false _ := (Returned builder, s)
    | exist _ true _
        with inspect (pick (noShrink m_generator) p s) := {
      | exist _ (Thrown e, s') _ := (Thrown e, s')
      | exist _ (Returned x, s') _ :=
          Collection_loop p size (int_add i 1)
            (snd (CollectionBuilder_add builder x)) s' } }.
Proof.
  unfold Collection_variant, c_lt, int_add, convert, to_signed,
    to_unsigned, usual_arithmetic_conversions, promote in e |- *.
  cbn [is_signed bits int_t size_t Bool.eqb Z.ltb Z.leb Z.compare
         Pos.compare Pos.compare_cont] in e |- *.
  change (2 ^ (32 - 1)) with 2147483648 in e |- *.
  change (2 ^ 32) with 4294967296 in e |- *.
  change (2 ^ 64) with 18446744073709551616 in e.
  rewrite Z.ltb_lt in e.
  apply Z2Nat.inj_lt; lia.
Qed.

Definition Collection_generate : Gen Container :=
  startSize <- currentSize ;;
  size <- pick (ranged size_t (convert size_t 0)
                  (convert size_t (int_add startSize 1))) ;;
  fun p s => Collection_loop p size 0 [] s.

(** [Collection::shrink]. *)
Variable removeChunks : Container -> shrink.IteratorUP Container.

Definition Collection_shrink (value : Container)
  : shrink.IteratorUP Container :=
  if is_copy_constructible Container
  then shrink.sequentially
         (removeChunks value)
         (shrink.eachElement value
            (fun element => shrink m_generator element))
  else shrink.nothing.

Definition Collection : Generator Container :=
  {| generate := Collection_generate;
     shrink := Collection_shrink |}.

(** [Collection<std::array<T, N>, Gen>::shrink]; the array is the
    sequence of its [N] elements. *)
Definition Collection_array_shrink (value : Container)
  : shrink.IteratorUP Container :=
  if is_copy_constructible Container
  then shrink.eachElement value (fun element => shrink m_generator element)
  else shrink.nothing.

End Containers.

(** ** [TupleOf<Gens...>] and [PairOf<Gen1, Gen2>]

    A tuple generator is indexed by the tuple type it generates:
    [std::tuple<>] is [unit] and [std::tuple<Head, Tail...>] is the pair of
    the head and the tail tuple. *)
Inductive TupleOf : Type -> Type :=
| TupleOf_nil : TupleOf unit
| TupleOf_cons {HeadT TailT : Type}
    {TupleT_copy : IsCopyConstructible (HeadT * TailT)}
    (m_headGenerator : Generator HeadT) (m_tailGenerator : TupleOf TailT)
  : TupleOf (HeadT * TailT).

(** [TupleOf<>] inherits [Generator::shrink]; [TupleOf<Gen, Gens...>::shrink]
    dispatches on the trait of its tuple type, and for a tuple that can be
    copied shrinks the head with the tail appended and then the tail with
    the head prepended. *)
Fixpoint TupleOf_shrink {TupleT} (g : TupleOf TupleT)
  : TupleT -> shrink.IteratorUP TupleT :=
  match g in TupleOf TupleT return TupleT -> shrink.IteratorUP TupleT with
  | TupleOf_nil => fun value => Generator_shrink value
  | @TupleOf_cons HeadT TailT _ m_headGenerator m_tailGenerator =>
      fun value =>
        if is_copy_constructible (HeadT * TailT)
        then shrink.sequentially
               (shrink.map (shrink m_headGenerator (fst value))
                  (fun x => (x, snd value)))
               (shrink.map (TupleOf_shrink m_tailGenerator (snd value))
                  (fun x => (fst value, x)))
        else shrink.nothing
  end.

(** [PairOf::shrink]: the pair goes through the tuple generator
    [TupleOf<Gen1, Gen2>] and each candidate comes back as a pair. *)
Definition PairOf_shrink {T1 T2}
           {Tuple_copy : IsCopyConstructible (T1 * (T2 * unit))}
           {Tail_copy : IsCopyConstructible (T2 * unit)}
           (generator1 : Generator T1) (generator2 : Generator T2)
           (value : T1 * T2) : shrink.IteratorUP (T1 * T2) :=
  let m_generator :=
    TupleOf_cons generator1 (TupleOf_cons generator2 TupleOf_nil) in
  shrink.map
    (TupleOf_shrink m_generator (fst value, (snd value, tt)))
    (fun x => (fst x, fst (snd x))).

(** ** [gen::sample]

    The construction of a [RandomEngine] from a seed, the call operator of
    the generator and [show] are declared outside the header.  [sample]
    returns nothing; its result here is the text it writes to
    [std::cout]. *)
Variable RandomEngine_seed : Z -> RandomEngine.
Variable Generator_call : forall T, Generator T -> Gen T.

Definition endl : string := String "010" EmptyString.

(** The value [sample] passes to [show]: the result of [generator()] under
    the bindings of the size and of the engine made from the seed.  The
    engine is local to [sample]; the caller's is left as it was. *)
Definition sample_value {T} (sz : Z) (generator : Generator T) (seed : Z)
  : Gen T :=
  fun p s =>
    let local := {| engine := RandomEngine_seed seed; tree := tree s |} in
    let (result, local') :=
      scoped (let_Size sz) (Generator_call T generator) p local in
    (result, {| engine := engine s; tree := tree local' |}).

Definition sample {T} (show : T -> string) (sz : Z)
           (generator : Generator T) (seed : Z) : Gen string :=
  value <- sample_value sz generator seed ;;
  ret (show value ++ endl)%string.

(** ** Reference definitions

    What the combinators are compared with. *)

(** The attempts of [suchThat] at the given sizes, in order: a draw that
    throws ends them, an accepted value is returned, a rejected one leads to
    the next size, and when no size is left the generator gives up. *)
Fixpoint SuchThat_attempts {T} (g : Generator T) (pred : T -> bool)
         (p : Params) (sizes : list Z) (s : State) : Result T * State :=
  match sizes with
  | [] => (Thrown gave_up, s)
  | size :: rest =>
      match pick (noShrink (resize size g)) p s with
      | (Thrown e, s') => (Thrown e, s')
      | (Returned x, s') =>
          if pred x then (Returned x, s')
          else SuchThat_attempts g pred p rest s'
      end
  end.

(** The [n] values the local [size] of [SuchThat::generate] takes from
    [size] on, and the sizes of the attempts from the start size [start]. *)
Fixpoint sizes_from (size : Z) (n : nat) : list Z :=
  match n with
  | O => []
  | S n' => size :: sizes_from (int_add size 1) n'
  end.
Definition retry_sizes (start : Z) : list Z :=
  List.map (fun k => start + Z.of_nat k) (seq 0 101).

(** [n] picks of [g], one after the other. *)
Fixpoint pick_n {T} (n : nat) (g : Generator T) : Gen (list T) :=
  match n with
  | O => ret []
  | S n' => x <- pick g ;; xs <- pick_n n' g ;; ret (x :: xs)
  end.

(** The collection a builder holds after it was offered the elements [xs]
    in order. *)
Definition add_all {A} (add : list A -> A -> bool * list A)
           (xs : list A) (builder : list A) : list A :=
  fold_left (fun b x => snd (add b x)) xs builder.

(** The trait of the tuple type of a tuple generator, and whether it holds
    of that type and of the type of each of its tails, as it does for a tuple
    whose component types can all be copied. *)
Definition TupleOf_IsCopyConstructible {TupleT} (g : TupleOf TupleT) : bool :=
  match g with
  | TupleOf_nil => true
  | @TupleOf_cons HeadT TailT _ _ _ => is_copy_constructible (HeadT * TailT)
  end.
Fixpoint TupleOf_copy {TupleT} (g : TupleOf TupleT) : bool :=
  match g with
  | TupleOf_nil => true
  | @TupleOf_cons HeadT TailT _ _ tail =>
      is_copy_constructible (HeadT * TailT) && TupleOf_copy tail
  end.

(** The number of components of a tuple generator. *)
Fixpoint TupleOf_arity {TupleT} (g : TupleOf TupleT) : nat :=
  match g with
  | TupleOf_nil => O
  | TupleOf_cons _ tail => S (TupleOf_arity tail)
  end.

(** The candidates of a tuple for its component [i]: the shrinks of that
    component, each put in its place. *)
Fixpoint candidates_at {TupleT} (g : TupleOf TupleT) (i : nat)
  : TupleT -> list TupleT :=
  match g in TupleOf TupleT return TupleT -> list TupleT with
  | TupleOf_nil => fun _ => []
  | TupleOf_cons head tail =>
      fun value =>
        match i with
        | O => List.map (fun y => (y, snd value)) (shrink head (fst value))
        | S j =>
            List.map (fun t => (fst value, t))
                     (candidates_at tail j (snd value))
        end
  end.

(** [replaces_component g i t c]: [c] is the tuple [t] with component [i]
    replaced by one of the shrinks its generator proposes for it, and every
    other component as in [t]. *)
Inductive replaces_component
  : forall {TupleT}, TupleOf TupleT -> nat -> TupleT -> TupleT -> Prop :=
| replaces_head {HeadT TailT}
    {TupleT_copy : IsCopyConstructible (HeadT * TailT)}
    (head : Generator HeadT) (tail : TupleOf TailT) (h y : HeadT) (t : TailT) :
    In y (shrink head h) ->
    replaces_component (TupleOf_cons head tail) O (h, t) (y, t)
| replaces_tail {HeadT TailT}
    {TupleT_copy : IsCopyConstructible (HeadT * TailT)}
    (head : Generator HeadT) (tail : TupleOf TailT) (i : nat) (h : HeadT)
    (t t' : TailT) :
    replaces_component tail i t t' ->
    replaces_component (TupleOf_cons head tail) (S i) (h, t) (h, t').

End Rapidcheck.

Arguments Build_Params {RoseNode}.
Arguments param_Size {RoseNode}.
Arguments param_NoShrink {RoseNode}.
Arguments param_CurrentNode {RoseNode}.
Arguments let_Size {RoseNode}.
Arguments let_NoShrink {RoseNode}.
Arguments Build_State {RandomEngine RoseTree}.
Arguments engine {RandomEngine RoseTree}.
Arguments tree {RandomEngine RoseTree}.
Arguments ret {RandomEngine RoseNode RoseTree T}.
Arguments throw {RandomEngine RoseNode RoseTree T}.
Arguments bind {RandomEngine RoseNode RoseTree T U}.
Arguments scoped {RandomEngine RoseNode RoseTree T}.
Arguments currentSize {RandomEngine RoseNode RoseTree}.
Arguments Build_Generator {RandomEngine RoseNode RoseTree T}.
Arguments generate {RandomEngine RoseNode RoseTree T}.
Arguments shrink {RandomEngine RoseNode RoseTree T}.
Arguments pick {RandomEngine RoseNode RoseTree} RoseNode_pick {T}.
Arguments Resize {RandomEngine RoseNode RoseTree T}.
Arguments resize {RandomEngine RoseNode RoseTree T}.
Arguments NoShrink {RandomEngine RoseNode RoseTree T}.
Arguments noShrink {RandomEngine RoseNode RoseTree T}.
Arguments SuchThat_loop {RandomEngine RoseNode RoseTree} RoseNode_pick {T}.
Arguments SuchThat {RandomEngine RoseNode RoseTree} RoseNode_pick {T}.
Arguments Constant {RandomEngine RoseNode RoseTree T}.
Arguments constant {RandomEngine RoseNode RoseTree T}.
Arguments Lambda {RandomEngine RoseNode RoseTree T}.
Arguments lambda {RandomEngine RoseNode RoseTree T}.
Arguments arbitrary {RandomEngine RoseNode RoseTree}.
Arguments Ranged_generate {RandomEngine RoseNode RoseTree}.
Arguments Ranged {RandomEngine RoseNode RoseTree}.
Arguments ranged {RandomEngine RoseNode RoseTree}.
Arguments Scale {RandomEngine RoseNode RoseTree T}.
Arguments scale {RandomEngine RoseNode RoseTree T}.
Arguments Vector_shrink {RandomEngine RoseNode RoseTree A Container_copy}.
Arguments Collection_loop {RandomEngine RoseNode RoseTree} RoseNode_pick {A}.
Arguments Collection_generate {RandomEngine RoseNode RoseTree}
  RoseNode_pick kNominalSize Arbitrary {A}.
Arguments Collection_shrink {RandomEngine RoseNode RoseTree A Container_copy}.
Arguments Collection {RandomEngine RoseNode RoseTree}
  RoseNode_pick kNominalSize Arbitrary {A Container_copy}.
Arguments Collection_array_shrink
  {RandomEngine RoseNode RoseTree A Container_copy}.
Arguments TupleOf_nil {RandomEngine RoseNode RoseTree}.
Arguments TupleOf_cons {RandomEngine RoseNode RoseTree HeadT TailT TupleT_copy}.
Arguments TupleOf_copy {RandomEngine RoseNode RoseTree TupleT}.
Arguments TupleOf_IsCopyConstructible
  {RandomEngine RoseNode RoseTree TupleT}.
Arguments TupleOf_shrink {RandomEngine RoseNode RoseTree TupleT}.
Arguments PairOf_shrink
  {RandomEngine RoseNode RoseTree T1 T2 Tuple_copy Tail_copy}.
Arguments sample_value {RandomEngine RoseNode RoseTree}
  RandomEngine_seed Generator_call {T}.
Arguments sample {RandomEngine RoseNode RoseTree}
  RandomEngine_seed Generator_call {T}.
Arguments SuchThat_attempts {RandomEngine RoseNode RoseTree} RoseNode_pick {T}.
Arguments pick_n {RandomEngine RoseNode RoseTree} RoseNode_pick {T}.
Arguments TupleOf_arity {RandomEngine RoseNode RoseTree TupleT}.
Arguments candidates_at {RandomEngine RoseNode RoseTree TupleT}.
Arguments replaces_component {RandomEngine RoseNode RoseTree TupleT}.

(** ** The other combinators of the header *)

Section Combinators.

Variables RandomEngine RoseNode RoseTree : Type.
Variable RoseNode_pick :
  forall T, RoseNode -> Generator RandomEngine RoseNode RoseTree T ->
            Gen RandomEngine RoseNode RoseTree T.

Local Abbreviation Generator' := (Generator RandomEngine RoseNode RoseTree).
Local Abbreviation Gen' := (Gen RandomEngine RoseNode RoseTree).
Local Abbreviation State' := (State RandomEngine RoseTree).
Local Abbreviation Params' := (@Params RoseNode).

Local Notation "x <- m ;; k" := (bind m (fun x => k))
  (at level 61, m at next level, right associativity).

(** [Mapped<Gen, Mapper>], what [gen::map(generator, mapper)] returns; it does
    not implement [shrink]. *)
Definition Mapped {T U} (m_generator : Generator' T) (m_mapper : T -> U)
  : Generator' U :=
  {| generate := x <- pick RoseNode_pick m_generator ;; ret (m_mapper x);
     shrink := Generator_shrink |}.

(** [Rescue<Exception, Gen, Catcher>]: [catches] tells the exceptions that
    the handler [catch (const Exception &e)] takes.  The inner generator is
    run by [generate], not by a pick. *)
Definition Rescue {T} (catches : Exception -> bool)
           (m_generator : Generator' T) (m_catcher : Exception -> Gen' T)
  : Generator' T :=
  {| generate := fun p s =>
       match generate m_generator p s with
       | (Returned x, s') => (Returned x, s')
       | (Thrown e, s') =>
           if catches e then m_catcher e p s' else (Thrown e, s')
       end;
     shrink := Generator_shrink |}.
Definition rescue {T} (catches : Exception -> bool)
           (generator : Generator' T) (catcher : Exception -> Gen' T) :=
  Rescue catches generator catcher.

(** [Multiplexer<Gens...>]: one generator, or a generator and the
    multiplexer of the generators after it. *)
Inductive Multiplexer (T : Type) : Type :=
| Multiplexer_last (m_generator : Generator' T)
| Multiplexer_more (m_generator : Generator' T)
    (m_multiplexer : Multiplexer T).
Arguments Multiplexer_last {T} m_generator.
Arguments Multiplexer_more {T} m_generator m_multiplexer.

Fixpoint numGenerators {T} (m : Multiplexer T) : Z :=
  match m with
  | Multiplexer_last _ => 1
  | Multiplexer_more _ m_multiplexer => numGenerators m_multiplexer + 1
  end.

(** [myId], the number of generators after this one. *)
Definition myId {T} (m : Multiplexer T) : Z :=
  match m with
  | Multiplexer_last _ => 0
  | Multiplexer_more _ m_multiplexer => numGenerators m_multiplexer
  end.

Fixpoint pickWithId {T} (m : Multiplexer T) (id : Z) : Gen' T :=
  match m with
  | Multiplexer_last m_generator => pick RoseNode_pick m_generator
  | Multiplexer_more m_generator m_multiplexer =>
      if id =? myId m
      then pick RoseNode_pick m_generator
      else pickWithId m_multiplexer id
  end.

(** ** [Vector::generate] *)
Section Vector_generate.
Context {A : Type}.
Variable CollectionBuilder_add : list A -> A -> bool * list A.
Variable m_generator : Generator' A.

(** What [detail::showType<Container>] writes. *)
Variable Container_type : string.

Definition Vector_gave_up : Exception :=
  GenerationFailure
    ("Gave up trying to generate value that can be added"
       ++ "to container of type '" ++ Container_type ++ "'").

(** The [while] loop of [Vector::generate], which adds one element: from the
    state in which the local [currentSize] has the given value. *)
Equations? Vector_add_loop (startSize : Z) (p : Params') (currentSize : Z)
           (builder : list A) (s : State') : Result (list A) * State'
  by wf (SuchThat_variant startSize currentSize) lt :=
  Vector_add_loop startSize p currentSize builder s
    with inspect (pick RoseNode_pick
                       (resize currentSize (noShrink m_generator)) p s) := {
    | exist _ (Thrown e, s') _ := (Thrown e, s')
    | exist _ (Returned x, s') _
        with inspect (CollectionBuilder_add builder x) := {
      | exist _ (true, builder') _ := (Returned builder', s')
      | exist _ (false, builder') _
          with inspect
                 (int_sub (int_add currentSize 1) startSize >? 100) := {
        | exist _ true _ := (Thrown Vector_gave_up, s')
        | exist _ false _ :=
            Vector_add_loop startSize p (int_add currentSize 1)
                            builder' s' } } }.
Proof.
  unfold SuchThat_variant, int_sub, int_add, convert, to_signed,
    to_unsigned in e1 |- *.
  cbn [is_signed bits int_t] in e1 |- *.
  change (2 ^ (32 - 1)) with 2147483648 in e1 |- *.
  change (2 ^ 32) with 4294967296 in e1 |- *.
  rewrite Z.gtb_ltb, Z.ltb_ge in e1.
  apply Z2Nat.inj_lt; lia.
Qed.

(** The loop [for (int i = 0; i < m_size; i++)] of [Vector::generate], from
    the state in which [i] has the given value; each round reads the current
    size anew. *)
Equations? Vector_loop (p : Params') (m_size : Z) (i : Z)
           (builder : list A) (s : State') : Result (list A) * State'
  by wf (Collection_variant i) lt :=
  Vector_loop p m_size i builder s
    with inspect (c_lt int_t i size_t m_size) := {
    | exist _ false _ := (Returned builder, s)
    | exist _ true _
        with inspect (Vector_add_loop (param_Size p) p (param_Size p)
                                      builder s) := {
      | exist _ (Thrown e, s') _ := (Thrown e, s')
      | exist _ (Returned builder', s') _ :=
          Vector_loop p m_size (int_add i 1) builder' s' } }.
Proof.
  unfold Collection_variant, c_lt, int_add, convert, to_signed,
    to_unsigned, usual_arithmetic_conversions, promote in e |- *.
  cbn [is_signed bits int_t size_t Bool.eqb Z.ltb Z.leb Z.compare
         Pos.compare Pos.compare_cont] in e |- *.
  change (2 ^ (32 - 1)) with 2147483648 in e |- *.
  change (2 ^ 32) with 4294967296 in e |- *.
  change (2 ^ 64) with 18446744073709551616 in e.
  rewrite Z.ltb_lt in e.
  apply Z2Nat.inj_lt; lia.
Qed.

Definition Vector_generate (m_size : Z) : Gen' (list A) :=
  fun p s => Vector_loop p m_size 0 [] s.

(** The attempts of [Vector::generate] to add one element, at the given
    sizes in order: a draw that throws ends them, an element the builder
    takes ends them with the builder, a refused one leads to the next size,
    and when no size is left the generator gives up. *)
Fixpoint Vector_add_attempts (p : Params') (sizes : list Z)
         (builder : list A) (s : State') : Result (list A) * State' :=
  match sizes with
  | [] => (Thrown Vector_gave_up, s)
  | size :: rest =>
      match pick RoseNode_pick (resize size (noShrink m_generator)) p s with
      | (Thrown e, s') => (Thrown e, s')
      | (Returned x, s') =>
          let (taken, builder') := CollectionBuilder_add builder x in
          if taken then (Returned builder', s')
          else Vector_add_attempts p rest builder' s'
      end
  end.

(** [n] elements added one after the other, each with its own attempts from
    the current size on. *)
Fixpoint Vector_elements (n : nat) (builder : list A) : Gen' (list A) :=
  match n with
  | O => ret builder
  | S n' =>
      fun p s =>
        match Vector_add_attempts p (retry_sizes (param_Size p)) builder s with
        | (Thrown e, s') => (Thrown e, s')
        | (Returned builder', s') => Vector_elements n' builder' p s'
        end
  end.

End Vector_generate.

(** ** The [generate] of the collection of [std::array] *)
Section Array_generate.
Context {A : Type}.
Variable m_generator : Generator' A.

(** The variant of the loop of the array collection: the distance of the
    [std::size_t] counter from [N]. *)
Definition array_variant (N i : Z) : nat :=
  Z.to_nat (to_unsigned 64 N - to_unsigned 64 i).

(** The loop [for (std::size_t i = 0; i < N; i++)] that assigns a pick of
    [noShrink(m_generator)] to [array[i]], from the state in which [i] has
    the given value. *)
Equations? Collection_array_loop (N : Z) (p : Params') (i : Z)
           (array : list A) (s : State') : Result (list A) * State'
  by wf (array_variant N i) lt :=
  Collection_array_loop N p i array s
    with inspect (c_lt size_t i size_t N) := {
    | exist _ false _ := (Returned array, s)
    | exist _ true _
        with inspect (pick RoseNode_pick (noShrink m_generator) p s) := {
      | exist _ (Thrown e, s') _ := (Thrown e, s')
      | exist _ (Returned x, s') _ :=
          Collection_array_loop N p (convert size_t (i + 1))
            (shrink.replace_at array (Z.to_nat (convert size_t i)) x) s' } }.
Proof.
  unfold array_variant, c_lt, convert, to_unsigned,
    usual_arithmetic_conversions, promote in e |- *.
  cbn [is_signed bits int_t size_t Bool.eqb Z.ltb Z.leb Z.compare
         Pos.compare Pos.compare_cont] in e |- *.
  change (2 ^ 64) with 18446744073709551616 in e |- *.
  rewrite Z.ltb_lt in e.
  apply Z2Nat.inj_lt; lia.
Qed.

(** [Collection<std::array<T, N>, Gen>::generate]; [ArrayT array] holds [N]
    default-constructed elements. *)
Definition Collection_array_generate (default_value : A) (N : Z)
  : Gen' (list A) :=
  fun p s =>
    Collection_array_loop N p 0 (repeat default_value (Z.to_nat N)) s.

End Array_generate.

(** The generators of a multiplexer, in the order of the arguments of
    [oneOf]. *)
Fixpoint Multiplexer_generators {T} (m : Multiplexer T)
  : list (Generator' T) :=
  match m with
  | Multiplexer_last g => [g]
  | Multiplexer_more g rest => g :: Multiplexer_generators rest
  end.

(** Every component generator of a tuple generator proposes only shrinks
    that differ from the value it shrinks. *)
Fixpoint TupleOf_proper {TupleT}
         (g : TupleOf RandomEngine RoseNode RoseTree TupleT) : Prop :=
  match g with
  | TupleOf_nil => True
  | TupleOf_cons head tail =>
      (forall x, ~ In x (shrink head x)) /\ TupleOf_proper tail
  end.

(** The last generator of a multiplexer, and the generator that the id [id]
    selects: ids count from the last generator, and an id that numbers no
    generator selects the last one. *)
Fixpoint Multiplexer_final {T} (m : Multiplexer T) : Generator' T :=
  match m with
  | Multiplexer_last g => g
  | Multiplexer_more _ rest => Multiplexer_final rest
  end.
Definition Multiplexer_selected {T} (m : Multiplexer T) (id : Z)
  : Generator' T :=
  if (0 <=? id) && (id <? numGenerators m)
  then nth (Z.to_nat (numGenerators m - 1 - id)) (Multiplexer_generators m)
           (Multiplexer_final m)
  else Multiplexer_final m.

(** ** [OneOf], the sign-constrained generators and [Character::generate] *)
Section Arbitrary_generators.
Variable kNominalSize : Z.
Variable Arbitrary : IntType -> Generator' Z.

(** [OneOf<Gens...>]. *)
Definition OneOf {T} (m_multiplexer : Multiplexer T) : Generator' T :=
  {| generate :=
       let n := numGenerators m_multiplexer in
       id <- pick RoseNode_pick
                  (resize kNominalSize
                          (ranged RoseNode_pick kNominalSize Arbitrary
                                  int_t 0 n)) ;;
       pickWithId m_multiplexer id;
     shrink := Generator_shrink |}.
Definition oneOf {T} (generators : Multiplexer T) := OneOf generators.

(** [suchThat<T>(pred)], the overload on the arbitrary generator of [T]. *)
Definition suchThat_arbitrary (T : IntType) (pred : Z -> bool)
  : Generator' Z :=
  SuchThat RoseNode_pick (arbitrary Arbitrary T) pred.

(** The generators of [IMPLEMENT_SUCH_THAT_GEN], which [gen::nonZero],
    [gen::positive], [gen::negative] and [gen::nonNegative] return. *)
Definition NonZero (T : IntType) : Generator' Z :=
  {| generate :=
       pick RoseNode_pick (suchThat_arbitrary T (fun x => negb (x =? 0)));
     shrink := Generator_shrink |}.
Definition Positive (T : IntType) : Generator' Z :=
  {| generate := pick RoseNode_pick (suchThat_arbitrary T (fun x => x >? 0));
     shrink := Generator_shrink |}.
Definition Negative (T : IntType) : Generator' Z :=
  {| generate := pick RoseNode_pick (suchThat_arbitrary T (fun x => x <? 0));
     shrink := Generator_shrink |}.
Definition NonNegative (T : IntType) : Generator' Z :=
  {| generate := pick RoseNode_pick (suchThat_arbitrary T (fun x => x >=? 0));
     shrink := Generator_shrink |}.

(** [Character<T>]. *)
Definition Character (T : IntType) : Generator' Z :=
  {| generate :=
       pick RoseNode_pick
            (oneOf
               (Multiplexer_more
                  (Mapped (ranged RoseNode_pick kNominalSize Arbitrary
                                  uint8_t 1 128)
                          (fun x => convert T x))
                  (Multiplexer_last (NonZero T))));
     shrink := Character_shrink |}.
Definition character (T : IntType) := Character T.

End Arbitrary_generators.

End Combinators.

Arguments Mapped {RandomEngine RoseNode RoseTree} RoseNode_pick {T U}.
Arguments Rescue {RandomEngine RoseNode RoseTree T}.
Arguments rescue {RandomEngine RoseNode RoseTree T}.
Arguments Multiplexer_last {RandomEngine RoseNode RoseTree T}.
Arguments Multiplexer_more {RandomEngine RoseNode RoseTree T}.
Arguments numGenerators {RandomEngine RoseNode RoseTree T}.
Arguments myId {RandomEngine RoseNode RoseTree T}.
Arguments pickWithId {RandomEngine RoseNode RoseTree} RoseNode_pick {T}.
Arguments Multiplexer_generators {RandomEngine RoseNode RoseTree T}.
Arguments Multiplexer_final {RandomEngine RoseNode RoseTree T}.
Arguments TupleOf_proper {RandomEngine RoseNode RoseTree TupleT}.
Arguments Multiplexer_selected {RandomEngine RoseNode RoseTree T}.
Arguments Vector_add_loop {RandomEngine RoseNode RoseTree} RoseNode_pick {A}.
Arguments Vector_loop {RandomEngine RoseNode RoseTree} RoseNode_pick {A}.
Arguments Vector_generate {RandomEngine RoseNode RoseTree} RoseNode_pick {A}.
Arguments Collection_array_loop
  {RandomEngine RoseNode RoseTree} RoseNode_pick {A}.
Arguments Collection_array_generate
  {RandomEngine RoseNode RoseTree} RoseNode_pick {A}.
Arguments Vector_add_attempts
  {RandomEngine RoseNode RoseTree} RoseNode_pick {A}.
Arguments Vector_elements {RandomEngine RoseNode RoseTree} RoseNode_pick {A}.
Arguments OneOf {RandomEngine RoseNode RoseTree} RoseNode_pick
  kNominalSize Arbitrary {T}.
Arguments oneOf {RandomEngine RoseNode RoseTree} RoseNode_pick
  kNominalSize Arbitrary {T}.
Arguments suchThat_arbitrary {RandomEngine RoseNode RoseTree}.
Arguments NonZero {RandomEngine RoseNode RoseTree}.
Arguments Positive {RandomEngine RoseNode RoseTree}.
Arguments Negative {RandomEngine RoseNode RoseTree}.
Arguments NonNegative {RandomEngine RoseNode RoseTree}.
Arguments Character {RandomEngine RoseNode RoseTree}.
Arguments character {RandomEngine RoseNode RoseTree}.

(** ** A small instance of the library

    For the examples: the engine is a linear congruential generator over 64
    bits, an integer generator returns the state of the engine converted to
    its type, and there is no rose tree (every pick is a top-level pick). *)

Definition lcg_next (e : Z) : Z :=
  (6364136223846793005 * e + 1442695040888963407) mod 2 ^ 64.

Definition no_node_pick (T : Type) (node : Empty_set)
  : Generator Z Empty_set unit T -> Gen Z Empty_set unit T :=
  match node with end.

Definition lcg_Arbitrary (t : IntType) : Generator Z Empty_set unit Z :=
  {| generate := fun _ s =>
       (Returned (convert t (engine s)),
        {| engine := lcg_next (engine s); tree := tree s |});
     shrink := Generator_shrink |}.

Definition top_level (size : Z) : @Params Empty_set :=
  {| param_Size := size; param_NoShrink := false; param_CurrentNode := None |}.

Definition seeded (seed : Z) : State Z unit :=
  {| engine := seed; tree := tt |}.

(** A generator that returns the size it is run at. *)
Definition sizeProbe : Generator Z Empty_set unit Z := lambda currentSize.

(** An integer generator whose values shrink to zero. *)
Definition towards_zero : Generator Z Empty_set unit Z :=
  {| generate := generate (lcg_Arbitrary int_t);
     shrink := fun v => if v =? 0 then [] else [0] |}.

(** Types that can be copied and types that can only be moved. *)
Definition copyable (T : Type) : IsCopyConstructible T := true.
Definition move_only (T : Type) : IsCopyConstructible T := false.

(** The builder of [std::vector], which takes every element, and a
    [removeChunks] whose only candidate for a non-empty sequence removes all
    of it. *)
Definition vector_add {A} (builder : list A) (x : A) : bool * list A :=
  (true, builder ++ [x]).
Definition removeChunks_whole {A} (v : list A) : shrink.IteratorUP (list A) :=
  match v with
  | [] => []
  | _ :: _ => [[]]
  end.

(** The builder of a set of integers, which refuses an element it holds,
    and the exceptions that a handler of [GenerationFailure] takes. *)
Definition set_add (builder : list Z) (x : Z) : bool * list Z :=
  if List.existsb (Z.eqb x) builder then (false, builder)
  else (true, builder ++ [x]).
Definition is_GenerationFailure (e : Exception) : bool :=
  match e with
  | GenerationFailure _ => true
  | OtherException _ => false
  end.

(** [0.75] and [0.5]. *)
Definition three_quarters : double :=
  binary_normalize double_prec double_emax 3 (-2) false.
Definition one_half : double :=
  binary_normalize double_prec double_emax 1 (-1) false.

(** * Properties *)

(** ** Integer conversions *)

Ltac unfold_ints :=
  unfold int_add, int_sub, c_sub, c_rem, c_add, c_lt, convert, to_signed,
    to_unsigned, in_range, type_min, type_max, usual_arithmetic_conversions,
    promote, make_unsigned in *;
  cbn [bits is_signed int_t size_t uint8_t Bool.eqb Z.ltb Z.leb Z.compare
         Pos.compare Pos.compare_cont] in *;
  change (2 ^ (8 - 1)) with 128 in *;
  change (2 ^ 8) with 256 in *;
  change (2 ^ (16 - 1)) with 32768 in *;
  change (2 ^ 16) with 65536 in *;
  change (2 ^ (32 - 1)) with 2147483648 in *;
  change (2 ^ 32) with 4294967296 in *;
  change (2 ^ (64 - 1)) with 9223372036854775808 in *;
  change (2 ^ 64) with 18446744073709551616 in *.

Lemma int_sub_succ (size start d : Z) :
  int_sub size start = d -> d < 2147483647 ->
  int_sub (int_add size 1) start = d + 1.
Proof. unfold_ints. lia. Qed.

Lemma int_sub_diag (start : Z) : int_sub start start = 0.
Proof. unfold int_sub. rewrite Z.sub_diag. reflexivity. Qed.

Lemma int_add_in_range (a b : Z) :
  in_range int_t (a + b) -> int_add a b = a + b.
Proof. unfold_ints. lia. Qed.

Lemma sizes_from_in_range (n : nat) (size : Z) :
  type_min int_t <= size ->
  size + Z.of_nat n - 1 <= type_max int_t ->
  sizes_from size n = List.map (fun k => size + Z.of_nat k) (seq 0 n).
Proof.
  revert size. induction n as [|n IH]; intros size Hlo Hhi; [reflexivity|].
  cbn [sizes_from seq List.map]. rewrite Z.add_0_r. f_equal.
  destruct n as [|m]; [reflexivity|].
  rewrite <- seq_shift, map_map.
  assert (Hsucc : int_add size 1 = size + 1)
    by (apply int_add_in_range; unfold_ints; lia).
  rewrite Hsucc, IH by (unfold_ints; lia).
  apply map_ext. intros k. lia.
Qed.

(** The arithmetic of [Ranged::generate] in every integer type: the
    conversions between [T], its unsigned type and [int] cancel. *)
Lemma Ranged_arithmetic (T : IntType) (lo hi raw : Z) :
  standard_width T -> in_range T lo -> in_range T hi -> lo < hi ->
  in_range (make_unsigned T) raw ->
  convert T
    (c_add T lo (usual_arithmetic_conversions (make_unsigned T) (promote T))
       (c_rem (make_unsigned T) raw (promote T) (c_sub T hi T lo)))
  = lo + raw mod (hi - lo).
Proof.
  destruct T as [w sg]. unfold standard_width. cbn [bits].
  intros Hw Hlo Hhi Hlt Hraw.
  pose proof (Z.mod_pos_bound raw (hi - lo) ltac:(lia)) as Hr.
  destruct Hw as [->|[->|[->| ->]]]; destruct sg; unfold_ints;
    match goal with
    | |- context [Z.rem ?a ?b] =>
        replace a with raw by lia; replace b with (hi - lo) by lia
    end;
    rewrite Z.rem_mod_nonneg by lia;
    set (r := raw mod (hi - lo)) in *; clearbody r; lia.
Qed.

(** ** Sequences *)

Lemma map_flat_map {A B C} (f : B -> C) (h : A -> list B) (l : list A) :
  List.map f (flat_map h l) = flat_map (fun x => List.map f (h x)) l.
Proof.
  induction l as [|x l IH]; [reflexivity|].
  cbn. rewrite map_app, IH. reflexivity.
Qed.

Lemma flat_map_seq_shift {B} (h : nat -> list B) (n : nat) :
  flat_map h (seq 1 n) = flat_map (fun i => h (S i)) (seq 0 n).
Proof.
  rewrite <- seq_shift. induction (seq 0 n) as [|i l IH]; [reflexivity|].
  cbn. rewrite IH. reflexivity.
Qed.

(** ** The value of a [double] *)

Lemma double_trunc_integer_part (d : double) (z : Z) :
  double_trunc d = Some z -> integer_part d z.
Proof.
  destruct d as [sign|sign| |sign m e]; unfold double_trunc;
    try discriminate; intros H;
    apply (f_equal (fun o : option Z => match o with
                                        | Some x => x
                                        | None => 0
                                        end)) in H;
    cbv beta iota in H; subst z;
    unfold integer_part, double_num, double_den.
  - lia.
  - destruct (0 <=? e) eqn:He.
    + assert (0 < 2 ^ e) by (apply Z.pow_pos_nonneg; lia).
      set (P := Z.pos m * 2 ^ e). assert (0 < P) by (unfold P; nia).
      pose proof (Z.square_nonneg P).
      destruct sign; rewrite ?Z.mul_opp_opp; lia.
    + apply Z.leb_gt in He.
      assert (HD : 0 < 2 ^ (- e)) by (apply Z.pow_pos_nonneg; lia).
      set (D := 2 ^ (- e)) in *.
      pose proof (Z.mul_div_le (Z.pos m) D HD).
      pose proof (Z.mul_succ_div_gt (Z.pos m) D HD).
      assert (0 <= Z.pos m / D) by (apply Z.div_pos; lia).
      set (q := Z.pos m / D) in *.
      assert (0 <= q * Z.pos m) by nia.
      destruct sign; rewrite ?Z.mul_opp_opp, ?Z.abs_opp, ?Z.abs_eq by lia;
        nia.
Qed.

(** ** [character] *)


Section Properties.

Variables RandomEngine RoseNode RoseTree : Type.
Variable RoseNode_pick :
  forall T, RoseNode -> Generator RandomEngine RoseNode RoseTree T ->
            Gen RandomEngine RoseNode RoseTree T.

Local Abbreviation Generator' := (Generator RandomEngine RoseNode RoseTree).
Local Abbreviation State' := (State RandomEngine RoseTree).
Local Abbreviation Params' := (@Params RoseNode).

(** ** Picks *)

(** Outside a rose tree a pick of [noShrink(resize(size, g))] is a draw of [g]
    at that size with [param::NoShrink] set. *)
Lemma pick_noShrink_resize_top_level {T} (g : Generator' T) (size : Z)
      (p : Params') (s : State') :
  param_CurrentNode p = None ->
  pick RoseNode_pick (noShrink (resize size g)) p s
  = generate g {| param_Size := size;
                  param_NoShrink := true;
                  param_CurrentNode := None |} s.
Proof.
  intros Hnode. unfold pick. rewrite Hnode. cbn. unfold scoped.
  unfold let_Size, let_NoShrink. cbn. rewrite Hnode. reflexivity.
Qed.

(** ** [suchThat] *)

Section SuchThat_properties.
Context {T : Type} (g : Generator' T) (pred : T -> bool).

Lemma SuchThat_loop_step (startSize : Z) (p : Params') (size : Z)
      (s : State') :
  SuchThat_loop RoseNode_pick g pred startSize p size s
  = match pick RoseNode_pick (noShrink (resize size g)) p s with
    | (Thrown e, s') => (Thrown e, s')
    | (Returned x, s') =>
        if pred x then (Returned x, s')
        else if int_sub (int_add size 1) startSize >? 100
             then (Thrown gave_up, s')
             else SuchThat_loop RoseNode_pick g pred startSize p
                                (int_add size 1) s'
    end.
Proof.
  funelim (SuchThat_loop RoseNode_pick g pred startSize p size s);
    clear Heqcall;
    repeat match goal with
           | E : ?l = ?r |- context [?l] => rewrite E
           end;
    reflexivity.
Qed.

Lemma SuchThat_loop_attempts (startSize : Z) (p : Params') (n : nat) :
  forall (size : Z) (s : State'),
    int_sub size startSize = 100 - Z.of_nat n ->
    SuchThat_loop RoseNode_pick g pred startSize p size s
    = SuchThat_attempts RoseNode_pick g pred p (sizes_from size (S n)) s.
Proof.
  induction n as [|n IH]; intros size s Hd;
    rewrite SuchThat_loop_step; cbn [sizes_from SuchThat_attempts];
    destruct (pick RoseNode_pick _ p s) as [[x|e] s']; try reflexivity;
    destruct (pred x); try reflexivity;
    rewrite (int_sub_succ _ _ _ Hd) by lia.
  - reflexivity.
  - replace (100 - Z.of_nat (S n) + 1 >? 100) with false
      by (symmetry; rewrite Z.gtb_ltb; apply Z.ltb_ge; lia).
    apply IH. rewrite (int_sub_succ _ _ _ Hd) by lia. lia.
Qed.

(** C1, as the code has it: [suchThat(g, pred)] draws from [g] through a
    non-shrinking pick at the current size and, each time [pred] rejects the
    value, at a size one larger; the first accepted value is returned, a throw
    of the inner draw is passed on, and the generator fails with its
    gave-up error when the 101 draws at the sizes [start], ..., [start + 100]
    have all been rejected. *)
Theorem SuchThat_generate_attempts (p : Params') (s : State') :
  type_min int_t <= param_Size p ->
  param_Size p + 100 <= type_max int_t ->
  generate (SuchThat RoseNode_pick g pred) p s
  = SuchThat_attempts RoseNode_pick g pred p (retry_sizes (param_Size p)) s
  /\ List.length (retry_sizes (param_Size p)) = 101%nat
  /\ (param_CurrentNode p = None ->
      forall size s0,
        pick RoseNode_pick (noShrink (resize size g)) p s0
        = generate g {| param_Size := size;
                        param_NoShrink := true;
                        param_CurrentNode := None |} s0).
Proof.
  intros Hlo Hhi. split; [|split].
  - cbn [generate SuchThat].
    rewrite (SuchThat_loop_attempts _ p 100)
      by (rewrite int_sub_diag; reflexivity).
    unfold retry_sizes. rewrite sizes_from_in_range by lia. reflexivity.
  - reflexivity.
  - intros Hnode size s0. apply pick_noShrink_resize_top_level, Hnode.
Qed.

End SuchThat_properties.

(** ** [ranged] *)

Section Arbitrary_properties.
Variable kNominalSize : Z.
Variable Arbitrary : IntType -> Generator' Z.

Section Ranged_properties.
Variables (T : IntType) (lo hi : Z).

(** The generator under observation and the pick it makes. *)
Local Abbreviation ranged_lo_hi :=
  (ranged RoseNode_pick kNominalSize Arbitrary T lo hi).
Local Abbreviation raw_pick :=
  (pick RoseNode_pick
        (noShrink
           (resize kNominalSize (arbitrary Arbitrary (make_unsigned T))))).

Lemma Ranged_generate_value (p : Params') (s : State') (raw : Z)
      (s' : State') :
  standard_width T -> in_range T lo -> in_range T hi -> lo < hi ->
  raw_pick p s = (Returned raw, s') ->
  in_range (make_unsigned T) raw ->
  generate ranged_lo_hi p s = (Returned (lo + raw mod (hi - lo)), s').
Proof.
  intros Hw Hlo Hhi Hlt Hpick Hraw.
  cbn [generate ranged Ranged]. unfold Ranged_generate.
  replace (hi <? lo) with false by (symmetry; apply Z.ltb_ge; lia).
  replace (hi =? lo) with false by (symmetry; apply Z.eqb_neq; lia).
  unfold bind. rewrite Hpick. unfold ret.
  rewrite Ranged_arithmetic by assumption. reflexivity.
Qed.

(** C2: a value that [ranged(lo, hi)] returns for [lo < hi] lies in
    [[lo, hi)], and it is [lo + raw mod (hi - lo)] for the unsigned value
    [raw] picked; [ranged(a, a)] returns [a]; [ranged(a, b)] with [b < a]
    throws a GenerationFailure. *)
Theorem ranged_generate_interval (p : Params') (s : State') :
  standard_width T -> in_range T lo -> in_range T hi ->
  (forall raw s', raw_pick p s = (Returned raw, s') ->
                  in_range (make_unsigned T) raw) ->
  (lo < hi ->
   forall v s', generate ranged_lo_hi p s = (Returned v, s') -> lo <= v < hi)
  /\ (lo < hi ->
      forall raw s', raw_pick p s = (Returned raw, s') ->
        generate ranged_lo_hi p s = (Returned (lo + raw mod (hi - lo)), s'))
  /\ (lo = hi -> generate ranged_lo_hi p s = (Returned lo, s))
  /\ (hi < lo ->
      generate ranged_lo_hi p s
      = (Thrown (GenerationFailure
                   ("Invalid range [" ++ to_string lo
                      ++ ", " ++ to_string hi ++ ")")), s)).
Proof.
  intros Hw Hlo Hhi Hraw.
  assert (Hvalue : lo < hi ->
                   forall raw s', raw_pick p s = (Returned raw, s') ->
                     generate ranged_lo_hi p s
                     = (Returned (lo + raw mod (hi - lo)), s')).
  { intros Hlt raw s' Hpick.
    apply Ranged_generate_value; try assumption. eapply Hraw, Hpick. }
  split; [|split; [exact Hvalue|split]].
  - intros Hlt v s' Hgen.
    destruct (raw_pick p s) as [[raw|e] s1] eqn:Hpick.
    + rewrite (Hvalue Hlt raw s1 eq_refl) in Hgen. injection Hgen as <- _.
      pose proof (Z.mod_pos_bound raw (hi - lo) ltac:(lia)). lia.
    + revert Hgen. cbn [generate ranged Ranged].
      unfold Ranged_generate.
      replace (hi <? lo) with false by (symmetry; apply Z.ltb_ge; lia).
      replace (hi =? lo) with false by (symmetry; apply Z.eqb_neq; lia).
      unfold bind. rewrite Hpick. discriminate.
  - intros ->. cbn [generate ranged Ranged].
    unfold Ranged_generate. rewrite Z.ltb_irrefl, Z.eqb_refl. reflexivity.
  - intros Hlt. cbn [generate ranged Ranged].
    unfold Ranged_generate.
    replace (hi <? lo) with true by (symmetry; apply Z.ltb_lt; lia).
    reflexivity.
Qed.

End Ranged_properties.

(** ** [collection] *)

Section Collection_properties.
Context {A : Type} {Container_copy : IsCopyConstructible (list A)}.
Variable add : list A -> A -> bool * list A.
Variable g : Generator' A.
Variable removeChunks : list A -> shrink.IteratorUP (list A).

Lemma Collection_loop_step (p : Params') (size i : Z) (builder : list A)
      (s : State') :
  Collection_loop RoseNode_pick add g p size i builder s
  = if c_lt int_t i size_t size
    then match pick RoseNode_pick (noShrink g) p s with
         | (Thrown e, s') => (Thrown e, s')
         | (Returned x, s') =>
             Collection_loop RoseNode_pick add g p size (int_add i 1)
                             (snd (add builder x)) s'
         end
    else (Returned builder, s).
Proof.
  funelim (Collection_loop RoseNode_pick add g p size i builder s);
    clear Heqcall;
    repeat match goal with
           | E : ?l = ?r |- context [?l] => rewrite E
           end;
    reflexivity.
Qed.

(** The loop makes one pick for each value of the counter below [size]. *)
Lemma Collection_loop_pick_n (p : Params') (size : Z) (n : nat) :
  forall (i : Z) (builder : list A) (s : State'),
    0 <= i -> i + Z.of_nat n = size -> size <= type_max int_t ->
    Collection_loop RoseNode_pick add g p size i builder s
    = bind (pick_n RoseNode_pick n (noShrink g))
           (fun xs => ret (add_all add xs builder)) p s.
Proof.
  induction n as [|n IH]; intros i builder s Hi Hn Hsize;
    rewrite Collection_loop_step.
  - replace (c_lt int_t i size_t size) with false
      by (symmetry; unfold_ints; apply Z.ltb_ge; lia).
    reflexivity.
  - replace (c_lt int_t i size_t size) with true
      by (symmetry; unfold_ints; apply Z.ltb_lt; lia).
    cbn [pick_n]. unfold bind at 1 2.
    destruct (pick RoseNode_pick (noShrink g) p s) as [[x|e] s'];
      [|reflexivity].
    rewrite IH; [| unfold_ints; lia | unfold_ints; lia | assumption].
    unfold bind, ret.
    destruct (pick_n RoseNode_pick n (noShrink g) p s') as [[xs|e] s''];
      reflexivity.
Qed.

Lemma pick_n_length {T} (h : Generator' T) (p : Params') (n : nat) :
  forall (s : State') (xs : list T) (s' : State'),
    pick_n RoseNode_pick n h p s = (Returned xs, s') -> List.length xs = n.
Proof.
  induction n as [|n IH]; intros s xs s'; cbn [pick_n]; unfold bind, ret.
  - intros H. injection H as <- _. reflexivity.
  - destruct (pick RoseNode_pick h p s) as [[x|e] s1]; [|discriminate].
    destruct (pick_n RoseNode_pick n h p s1) as [[ys|e] s2] eqn:Hn;
      [|discriminate].
    intros H. injection H as <- _. cbn. f_equal. eapply IH, Hn.
Qed.

(** A collection generated outside a rose tree: the length is the remainder
    of the unsigned value drawn by [size + 1], and that many picks follow. *)
Lemma Collection_generate_top_level (p : Params') (s : State') (raw : Z)
      (s1 : State') :
  param_CurrentNode p = None ->
  0 <= param_Size p < type_max int_t ->
  generate (Arbitrary size_t)
           {| param_Size := kNominalSize;
              param_NoShrink := true;
              param_CurrentNode := None |} s = (Returned raw, s1) ->
  in_range size_t raw ->
  0 <= raw mod (param_Size p + 1) <= param_Size p
  /\ generate (Collection RoseNode_pick kNominalSize Arbitrary add g
                          removeChunks) p s
     = bind (pick_n RoseNode_pick (Z.to_nat (raw mod (param_Size p + 1)))
                    (noShrink g))
            (fun xs => ret (add_all add xs [])) p s1.
Proof.
  intros Hnode Hsize Hraw Hin.
  pose proof (Z.mod_pos_bound raw (param_Size p + 1) ltac:(lia)) as Hlen.
  split; [lia|].
  cbn [generate Collection]. unfold Collection_generate.
  unfold bind at 1. unfold currentSize at 1.
  unfold bind at 1.
  assert (Hhi : convert size_t (int_add (param_Size p) 1) = param_Size p + 1)
    by (unfold_ints; lia).
  assert (Hlo : convert size_t 0 = 0) by reflexivity.
  rewrite Hhi, Hlo.
  assert (Hpick :
            pick RoseNode_pick
                 (ranged RoseNode_pick kNominalSize Arbitrary size_t 0
                         (param_Size p + 1)) p s
            = (Returned (raw mod (param_Size p + 1)), s1)).
  { unfold pick at 1. rewrite Hnode.
    rewrite (Ranged_generate_value size_t 0 (param_Size p + 1) p s raw s1).
    - rewrite Z.add_0_l, Z.sub_0_r. reflexivity.
    - right; right; right; reflexivity.
    - unfold_ints; lia.
    - unfold_ints; lia.
    - lia.
    - rewrite pick_noShrink_resize_top_level by assumption. exact Hraw.
    - exact Hin. }
  rewrite Hpick.
  apply Collection_loop_pick_n; [lia| |lia].
  rewrite Z2Nat.id by lia. lia.
Qed.

(** C4, as the code has it: for a size [s >= 0], outside a rose tree,
    [collection(g)] first draws a length in [[0, s]] (the half-open
    [[0, s + 1)]: the unsigned value drawn, modulo [s + 1]) and then makes
    exactly that many non-shrinking picks of [g], offering each to the
    builder; the length 0 is a possible draw and yields the empty
    collection. *)
Theorem Collection_generate_length (p : Params') (s : State') (raw : Z)
        (s1 : State') :
  param_CurrentNode p = None ->
  0 <= param_Size p < type_max int_t ->
  generate (Arbitrary size_t)
           {| param_Size := kNominalSize;
              param_NoShrink := true;
              param_CurrentNode := None |} s = (Returned raw, s1) ->
  in_range size_t raw ->
  let len := raw mod (param_Size p + 1) in
  let collection_g :=
    Collection RoseNode_pick kNominalSize Arbitrary add g removeChunks in
  0 <= len <= param_Size p
  /\ generate collection_g p s
     = bind (pick_n RoseNode_pick (Z.to_nat len) (noShrink g))
            (fun xs => ret (add_all add xs [])) p s1
  /\ (forall xs s2,
         pick_n RoseNode_pick (Z.to_nat len) (noShrink g) p s1
         = (Returned xs, s2) ->
         Z.of_nat (List.length xs) = len
         /\ generate collection_g p s = (Returned (add_all add xs []), s2))
  /\ (len = 0 -> generate collection_g p s = (Returned [], s1)).
Proof.
  intros Hnode Hsize Hraw Hin len collection_g.
  destruct (Collection_generate_top_level p s raw s1 Hnode Hsize Hraw Hin)
    as [Hlen Hgen].
  fold len in Hlen, Hgen. fold collection_g in Hgen.
  split; [exact Hlen|]. split; [exact Hgen|]. split.
  - intros xs s2 Hpicks. split.
    + rewrite (pick_n_length _ _ _ _ _ _ Hpicks). apply Z2Nat.id, Hlen.
    + rewrite Hgen. unfold bind. rewrite Hpicks. reflexivity.
  - intros Hzero. rewrite Hgen, Hzero. reflexivity.
Qed.

(** The candidates of [eachElement]: a position of the sequence holds one of
    the candidates proposed for its element. *)
Lemma eachElement_candidates (xs : list A) (per : A -> shrink.IteratorUP A)
      (c : list A) :
  In c (shrink.eachElement xs per)
  <-> exists i x y,
      nth_error xs i = Some x /\ In y (per x) /\ c = shrink.replace_at xs i y.
Proof.
  unfold shrink.eachElement. rewrite in_flat_map. split.
  - intros (i & _ & Hc). destruct (nth_error xs i) as [x|] eqn:Hx; [|easy].
    apply in_map_iff in Hc. destruct Hc as (y & <- & Hy).
    exists i, x, y. auto.
  - intros (i & x & y & Hx & Hy & ->). exists i. split.
    + apply in_seq. split; [lia|]. cbn.
      apply nth_error_Some. rewrite Hx. discriminate.
    + rewrite Hx. apply in_map, Hy.
Qed.

(** C5: for a copy-constructible container the shrink of [collection(g)] is
    [sequentially(removeChunks(v), eachElement(v, g.shrink))], that is, all
    the candidates of chunk removal followed by all the candidates of
    the elements; for [std::array] it is [eachElement(v, g.shrink)] alone. *)
Theorem Collection_shrink_sequence (v : list A) :
  is_copy_constructible (list A) = true ->
  let candidates :=
    shrink (Collection RoseNode_pick kNominalSize Arbitrary add g removeChunks)
           v in
  candidates
  = shrink.sequentially (removeChunks v)
                        (shrink.eachElement v (fun x => shrink g x))
  /\ firstn (List.length (removeChunks v)) candidates = removeChunks v
  /\ skipn (List.length (removeChunks v)) candidates
     = shrink.eachElement v (fun x => shrink g x)
  /\ Collection_array_shrink g v
     = shrink.eachElement v (fun x => shrink g x).
Proof.
  intros Hcopy. cbn [shrink Collection]. cbv zeta.
  unfold Collection_shrink, Collection_array_shrink. rewrite Hcopy.
  unfold shrink.sequentially. repeat split.
  - rewrite firstn_app, Nat.sub_diag, firstn_all. cbn [firstn].
    apply app_nil_r.
  - rewrite skipn_app, Nat.sub_diag, skipn_all. reflexivity.
Qed.

(** The containers that cannot be copied have no shrinks. *)
Lemma Container_shrink_not_copy_constructible (v : list A) :
  is_copy_constructible (list A) = false ->
  Vector_shrink g v = []
  /\ Collection_shrink g removeChunks v = []
  /\ Collection_array_shrink g v = [].
Proof.
  intros Hcopy.
  unfold Vector_shrink, Collection_shrink, Collection_array_shrink.
  rewrite Hcopy. repeat split.
Qed.

End Collection_properties.

End Arbitrary_properties.

(** ** [tupleOf] and [pairOf] *)

Local Abbreviation TupleOf' := (TupleOf RandomEngine RoseNode RoseTree).

Lemma TupleOf_shrink_candidates {TupleT} (g : TupleOf' TupleT) :
  forall t : TupleT,
    TupleOf_copy g = true ->
    TupleOf_shrink g t
    = flat_map (fun i => candidates_at g i t) (seq 0 (TupleOf_arity g)).
Proof.
  induction g as [|HeadT TailT TupleT_copy head tail IH]; intros t Hcopy.
  - reflexivity.
  - cbn [TupleOf_shrink TupleOf_arity]. cbn [TupleOf_copy] in Hcopy.
    apply andb_prop in Hcopy. destruct Hcopy as [Htop Htail].
    rewrite Htop, IH by exact Htail.
    unfold shrink.sequentially, shrink.map.
    cbn [seq flat_map]. rewrite flat_map_seq_shift, map_flat_map.
    reflexivity.
Qed.

Lemma replaces_in_candidates {TupleT} (g : TupleOf' TupleT) (i : nat)
      (t c : TupleT) :
  replaces_component g i t c -> In c (candidates_at g i t).
Proof.
  induction 1 as [HeadT TailT TupleT_copy head tail h y t Hy
                 |HeadT TailT TupleT_copy head tail i h t t' _ IH];
    cbn [candidates_at fst snd].
  - apply (in_map (fun y => (y, t))), Hy.
  - apply (in_map (fun u => (h, u))), IH.
Qed.

Lemma candidates_in_replaces {TupleT} (g : TupleOf' TupleT) :
  forall (i : nat) (t c : TupleT),
    In c (candidates_at g i t) -> replaces_component g i t c.
Proof.
  induction g as [|HeadT TailT TupleT_copy head tail IH]; intros i t c.
  - intros [].
  - destruct t as [h t].
    destruct i as [|i]; cbn [candidates_at fst snd]; intros Hc;
      apply in_map_iff in Hc.
    + destruct Hc as (y & <- & Hy). constructor. exact Hy.
    + destruct Hc as (t' & <- & Ht'). constructor. apply IH, Ht'.
Qed.

Lemma PairOf_shrink_candidates {T1 T2}
      {Tuple_copy : IsCopyConstructible (T1 * (T2 * unit))}
      {Tail_copy : IsCopyConstructible (T2 * unit)}
      (g1 : Generator' T1) (g2 : Generator' T2) (v : T1 * T2) :
  is_copy_constructible (T1 * (T2 * unit)) = true ->
  is_copy_constructible (T2 * unit) = true ->
  PairOf_shrink g1 g2 v
  = List.map (fun x => (x, snd v)) (shrink g1 (fst v))
    ++ List.map (fun y => (fst v, y)) (shrink g2 (snd v)).
Proof.
  intros H1 H2. unfold PairOf_shrink.
  cbn [TupleOf_shrink fst snd]. rewrite H1, H2.
  unfold shrink.sequentially, shrink.map, Generator_shrink, shrink.nothing.
  cbn [List.map]. rewrite app_nil_r, map_app, !map_map. reflexivity.
Qed.

(** C6: for a copy-constructible tuple the shrink of [tupleOf(g1, ..., gN)]
    is, for each component index from 0 upward, the candidates of that
    component, all of them before those of the next index; a candidate of
    index [i] is the tuple with component [i] replaced by a shrink that
    [g_i] proposes for it and every other component unchanged.  The shrink
    of [pairOf(g1, g2)] is the case of two components. *)
Theorem TupleOf_shrink_by_component {TupleT} (g : TupleOf' TupleT)
        (t : TupleT) :
  TupleOf_copy g = true ->
  TupleOf_shrink g t
  = flat_map (fun i => candidates_at g i t) (seq 0 (TupleOf_arity g))
  /\ (forall i c, In c (candidates_at g i t) <-> replaces_component g i t c)
  /\ (forall T1 T2 (Tuple_copy : IsCopyConstructible (T1 * (T2 * unit)))
             (Tail_copy : IsCopyConstructible (T2 * unit))
             (g1 : Generator' T1) (g2 : Generator' T2) (v : T1 * T2),
         is_copy_constructible (T1 * (T2 * unit)) = true ->
         is_copy_constructible (T2 * unit) = true ->
         PairOf_shrink g1 g2 v
         = List.map (fun x => (x, snd v)) (shrink g1 (fst v))
           ++ List.map (fun y => (fst v, y)) (shrink g2 (snd v))).
Proof.
  intros Hcopy. split; [|split].
  - apply TupleOf_shrink_candidates, Hcopy.
  - intros i c. split.
    + apply candidates_in_replaces.
    + apply replaces_in_candidates.
  - intros T1 T2 Tuple_copy Tail_copy g1 g2 v.
    apply PairOf_shrink_candidates.
Qed.

(** C10: when the tuple type is not copy-constructible the shrink of
    [tupleOf(g1, ..., gN)] is empty for every value, and so are those of
    [vector(n, g)] and [collection(g)] when the container type is not,
    whatever the shrinks of the component and element generators. *)
Theorem shrink_not_copy_constructible {TupleT} (g : TupleOf' TupleT)
        (t : TupleT) {A} (Container_copy : IsCopyConstructible (list A))
        (element : Generator' A)
        (removeChunks : list A -> shrink.IteratorUP (list A)) (v : list A) :
  TupleOf_IsCopyConstructible g = false ->
  is_copy_constructible (list A) = false ->
  TupleOf_shrink g t = []
  /\ Vector_shrink element v = []
  /\ Collection_shrink element removeChunks v = []
  /\ Collection_array_shrink element v = [].
Proof.
  intros Htuple Hcontainer. split.
  - destruct g as [|HeadT TailT TupleT_copy head tail];
      [discriminate Htuple|].
    cbn [TupleOf_shrink]. cbn [TupleOf_IsCopyConstructible] in Htuple.
    rewrite Htuple. reflexivity.
  - apply Container_shrink_not_copy_constructible, Hcontainer.
Qed.

(** ** [noShrink] and [scale] *)

(** C7: the shrink of [noShrink(g)] is the default shrink of [Generator],
    which is empty, for every value; its [generate] runs that of [g] with
    [param::NoShrink] set and the other parameters unchanged, and what runs
    after it has the parameters of before. *)
Theorem noShrink_generate_shrink {T} (g : Generator' T) (v : T)
        (p : Params') (s : State') :
  shrink (noShrink g) v = Generator_shrink v
  /\ shrink (noShrink g) v = []
  /\ generate (noShrink g) p s = generate g (let_NoShrink true p) s
  /\ let_NoShrink true p
     = {| param_Size := param_Size p;
          param_NoShrink := true;
          param_CurrentNode := param_CurrentNode p |}
  /\ forall U (k : T -> Gen RandomEngine RoseNode RoseTree U),
      bind (generate (noShrink g)) k p s
      = match generate g (let_NoShrink true p) s with
        | (Returned x, s') => k x p s'
        | (Thrown e, s') => (Thrown e, s')
        end.
Proof. repeat split. Qed.

(** C9, as the code has it: [scale(k, g)] runs [g] with the size set to the
    product of the size and [k], computed in [double] and converted to
    [int] by dropping its fractional part (rounding toward zero, not to the
    nearest integer); its shrink is that of [g]. *)
Theorem scale_generate_truncates {T} (k : double) (g : Generator' T)
        (p : Params') (s : State') (z : Z) :
  let product := double_mul (double_of_int (param_Size p)) k in
  double_trunc product = Some z ->
  in_range int_t z ->
  generate (scale k g) p s = generate g (let_Size z p) s
  /\ integer_part product z
  /\ forall v, shrink (scale k g) v = shrink g v.
Proof.
  intros product Htrunc Hrange. split; [|split].
  - cbn [generate scale Scale]. unfold scoped, int_of_double.
    fold product. rewrite Htrunc.
    destruct Hrange as [Hlo Hhi].
    apply Z.leb_le in Hlo, Hhi. rewrite Hlo, Hhi. reflexivity.
  - apply double_trunc_integer_part, Htrunc.
  - reflexivity.
Qed.

End Properties.

(** * Properties of the other combinators *)

Section More_properties.

Variables RandomEngine RoseNode RoseTree : Type.
Variable RoseNode_pick :
  forall T, RoseNode -> Generator RandomEngine RoseNode RoseTree T ->
            Gen RandomEngine RoseNode RoseTree T.

Local Abbreviation Generator' := (Generator RandomEngine RoseNode RoseTree).
Local Abbreviation Gen' := (Gen RandomEngine RoseNode RoseTree).
Local Abbreviation State' := (State RandomEngine RoseTree).
Local Abbreviation Params' := (@Params RoseNode).
Local Abbreviation Multiplexer' :=
  (Multiplexer RandomEngine RoseNode RoseTree).

(** ** What [suchThat] returns *)

Lemma SuchThat_loop_accepted {T} (g : Generator' T) (pred : T -> bool)
      (startSize : Z) (p : Params') (size : Z) (s : State') :
  forall (x : T) (s' : State'),
    SuchThat_loop RoseNode_pick g pred startSize p size s = (Returned x, s') ->
    pred x = true
    /\ exists size0 s0,
        pick RoseNode_pick (noShrink (resize size0 g)) p s0 = (Returned x, s').
Proof.
  funelim (SuchThat_loop RoseNode_pick g pred startSize p size s);
    clear Heqcall; intros x0 s0 Hrun; try discriminate Hrun.
  - injection Hrun as <- <-. split; [assumption|]. eauto.
  - eauto.
Qed.

(** X1: a value that [suchThat(g, pred)] returns satisfies [pred], and it is
    the value of one of the non-shrinking picks of [g], after which nothing
    more is drawn. *)
Theorem SuchThat_returns_accepted {T} (g : Generator' T) (pred : T -> bool)
        (p : Params') (s : State') (x : T) (s' : State') :
  generate (SuchThat RoseNode_pick g pred) p s = (Returned x, s') ->
  pred x = true
  /\ exists size s0,
      pick RoseNode_pick (noShrink (resize size g)) p s0 = (Returned x, s').
Proof. apply SuchThat_loop_accepted. Qed.

(** ** [Multiplexer::pickWithId] *)

Lemma numGenerators_length {T} (m : Multiplexer' T) :
  numGenerators m = Z.of_nat (List.length (Multiplexer_generators m))
  /\ 1 <= numGenerators m.
Proof.
  induction m as [g|g rest [IHlen IHpos]]; cbn [numGenerators
    Multiplexer_generators List.length]; [split; reflexivity|].
  split; lia.
Qed.

Lemma pickWithId_selected {T} (m : Multiplexer' T) (id : Z) :
  pickWithId RoseNode_pick m id
  = pick RoseNode_pick (Multiplexer_selected m id).
Proof.
  induction m as [g|g rest IH]; unfold Multiplexer_selected.
  - cbn [pickWithId numGenerators Multiplexer_generators Multiplexer_final].
    destruct ((0 <=? id) && (id <? 1)) eqn:Hin; [|reflexivity].
    apply andb_prop in Hin. destruct Hin as [Hlo Hhi].
    apply Z.leb_le in Hlo. apply Z.ltb_lt in Hhi.
    replace id with 0 by lia. reflexivity.
  - cbn [pickWithId myId numGenerators Multiplexer_generators
           Multiplexer_final].
    destruct (numGenerators_length rest) as [_ Hpos].
    destruct (id =? numGenerators rest) eqn:Heq.
    + apply Z.eqb_eq in Heq. subst id.
      replace ((0 <=? numGenerators rest)
               && (numGenerators rest <? numGenerators rest + 1)) with true
        by (symmetry; apply andb_true_intro; split;
            [apply Z.leb_le | apply Z.ltb_lt]; lia).
      replace (numGenerators rest + 1 - 1 - numGenerators rest) with 0 by lia.
      reflexivity.
    + apply Z.eqb_neq in Heq. rewrite IH. unfold Multiplexer_selected.
      destruct ((0 <=? id) && (id <? numGenerators rest)) eqn:Hin.
      * apply andb_prop in Hin. destruct Hin as [Hlo Hhi].
        apply Z.leb_le in Hlo. apply Z.ltb_lt in Hhi.
        replace ((0 <=? id) && (id <? numGenerators rest + 1)) with true
          by (symmetry; apply andb_true_intro; split;
              [apply Z.leb_le | apply Z.ltb_lt]; lia).
        replace (Z.to_nat (numGenerators rest + 1 - 1 - id))
          with (S (Z.to_nat (numGenerators rest - 1 - id))) by lia.
        reflexivity.
      * replace ((0 <=? id) && (id <? numGenerators rest + 1)) with false;
          [reflexivity|].
        symmetry. apply andb_false_iff. apply andb_false_iff in Hin.
        destruct Hin as [Hlo | Hhi]; [left; exact Hlo|right].
        apply Z.ltb_ge. apply Z.ltb_ge in Hhi. lia.
Qed.

(** X2: [pickWithId(id)] picks from the generators of [oneOf] counted from
    the last: of [N] generators, id [0] is the last one listed and id
    [N - 1] the first; an id outside [[0, N)] picks the last one. *)
Theorem pickWithId_counts_from_last {T} (m : Multiplexer' T) (id : Z) :
  pickWithId RoseNode_pick m id
  = pick RoseNode_pick
         (if (0 <=? id) && (id <? numGenerators m)
          then nth (Z.to_nat (numGenerators m - 1 - id))
                   (Multiplexer_generators m) (Multiplexer_final m)
          else Multiplexer_final m)
  /\ numGenerators m = Z.of_nat (List.length (Multiplexer_generators m))
  /\ Multiplexer_final m
     = List.last (Multiplexer_generators m) (Multiplexer_final m).
Proof.
  split; [apply pickWithId_selected|]. split; [apply numGenerators_length|].
  induction m as [g|g rest IH]; [reflexivity|].
  cbn [Multiplexer_final Multiplexer_generators].
  destruct (Multiplexer_generators rest) as [|h gens] eqn:Hgens.
  - destruct rest; discriminate Hgens.
  - cbn [List.last]. rewrite IH at 1. cbn [List.last].
    destruct gens; reflexivity.
Qed.

(** ** [rescue] *)

(** X3: whatever the catcher does, [rescue] returns what its generator
    returns, lets an exception that the handler does not take pass through,
    and answers an exception that the handler takes with the result of the
    catcher, run in the state the failed draw left (a catcher that throws
    again throws out of [rescue]); when the catcher never throws, no
    exception that the handler takes leaves [rescue]. *)
Theorem Rescue_takes_exceptions {T} (catches : Exception -> bool)
        (g : Generator' T) (catcher : Exception -> Gen' T)
        (p : Params') (s : State') :
  (forall x s', generate g p s = (Returned x, s') ->
                generate (rescue catches g catcher) p s = (Returned x, s'))
  /\ (forall e s', generate g p s = (Thrown e, s') ->
                   generate (rescue catches g catcher) p s
                   = if catches e then catcher e p s' else (Thrown e, s'))
  /\ ((forall e p0 s0, exists x s1, catcher e p0 s0 = (Returned x, s1)) ->
      forall e s', generate (rescue catches g catcher) p s = (Thrown e, s') ->
                   catches e = false).
Proof.
  cbn [generate rescue Rescue]. split; [|split].
  - intros x s' ->. reflexivity.
  - intros e s' ->. reflexivity.
  - intros Hcatcher e s'.
    destruct (generate g p s) as [[x|e0] s0]; [discriminate|].
    destruct (catches e0) eqn:Htakes.
    + destruct (Hcatcher e0 p s0) as (x & s1 & ->). discriminate.
    + intros H. injection H as <- _. exact Htakes.
Qed.

(** ** [vector] *)

Section Vector_properties.
Context {A : Type}.
Variable add : list A -> A -> bool * list A.
Variable g : Generator' A.
Variable Container_type : string.

Lemma Vector_add_loop_step (startSize : Z) (p : Params') (currentSize : Z)
      (builder : list A) (s : State') :
  Vector_add_loop RoseNode_pick add g Container_type startSize p currentSize
                  builder s
  = match pick RoseNode_pick (resize currentSize (noShrink g)) p s with
    | (Thrown e, s') => (Thrown e, s')
    | (Returned x, s') =>
        let (taken, builder') := add builder x in
        if taken then (Returned builder', s')
        else if int_sub (int_add currentSize 1) startSize >? 100
             then (Thrown (Vector_gave_up Container_type), s')
             else Vector_add_loop RoseNode_pick add g Container_type
                                  startSize p (int_add currentSize 1)
                                  builder' s'
    end.
Proof.
  funelim (Vector_add_loop RoseNode_pick add g Container_type startSize p
                           currentSize builder s);
    clear Heqcall;
    repeat match goal with
           | E : ?l = ?r |- context [?l] => rewrite E
           end;
    reflexivity.
Qed.

Lemma Vector_add_loop_attempts (startSize : Z) (p : Params') (n : nat) :
  forall (currentSize : Z) (builder : list A) (s : State'),
    int_sub currentSize startSize = 100 - Z.of_nat n ->
    Vector_add_loop RoseNode_pick add g Container_type startSize p currentSize
                    builder s
    = Vector_add_attempts RoseNode_pick add g Container_type p
                          (sizes_from currentSize (S n)) builder s.
Proof.
  induction n as [|n IH]; intros currentSize builder s Hd;
    rewrite Vector_add_loop_step; cbn [sizes_from Vector_add_attempts];
    destruct (pick RoseNode_pick _ p s) as [[x|e] s']; try reflexivity;
    destruct (add builder x) as [[|] builder']; try reflexivity;
    rewrite (int_sub_succ _ _ _ Hd) by lia.
  - reflexivity.
  - replace (100 - Z.of_nat (S n) + 1 >? 100) with false
      by (symmetry; rewrite Z.gtb_ltb; apply Z.ltb_ge; lia).
    apply IH. rewrite (int_sub_succ _ _ _ Hd) by lia. lia.
Qed.

Lemma Vector_loop_step (p : Params') (m_size i : Z) (builder : list A)
      (s : State') :
  Vector_loop RoseNode_pick add g Container_type p m_size i builder s
  = if c_lt int_t i size_t m_size
    then match Vector_add_loop RoseNode_pick add g Container_type
                               (param_Size p) p (param_Size p) builder s with
         | (Thrown e, s') => (Thrown e, s')
         | (Returned builder', s') =>
             Vector_loop RoseNode_pick add g Container_type p m_size
                         (int_add i 1) builder' s'
         end
    else (Returned builder, s).
Proof.
  funelim (Vector_loop RoseNode_pick add g Container_type p m_size i
                       builder s);
    clear Heqcall;
    repeat match goal with
           | E : ?l = ?r |- context [?l] => rewrite E
           end;
    reflexivity.
Qed.

Lemma Vector_loop_elements (p : Params') (m_size : Z) (n : nat) :
  type_min int_t <= param_Size p ->
  param_Size p + 100 <= type_max int_t ->
  forall (i : Z) (builder : list A) (s : State'),
    0 <= i -> i + Z.of_nat n = m_size -> m_size <= type_max int_t ->
    Vector_loop RoseNode_pick add g Container_type p m_size i builder s
    = Vector_elements RoseNode_pick add g Container_type n builder p s.
Proof.
  intros Hlo Hhi.
  induction n as [|n IH]; intros i builder s Hi Hn Hsize;
    rewrite Vector_loop_step.
  - replace (c_lt int_t i size_t m_size) with false
      by (symmetry; unfold_ints; apply Z.ltb_ge; lia).
    reflexivity.
  - replace (c_lt int_t i size_t m_size) with true
      by (symmetry; unfold_ints; apply Z.ltb_lt; lia).
    cbn [Vector_elements].
    rewrite (Vector_add_loop_attempts _ p 100)
      by (rewrite int_sub_diag; reflexivity).
    unfold retry_sizes. rewrite sizes_from_in_range by lia.
    destruct (Vector_add_attempts _ _ _ _ _ _ _ _) as [[builder'|e] s'];
      [|reflexivity].
    apply IH; [unfold_ints; lia | unfold_ints; lia | assumption].
Qed.

(** X4: [vector(n, g)] adds [n] elements one after the other, starting from
    the empty builder; each element has its own attempts, 101 at most, at the
    sizes [s], ..., [s + 100] from the current size [s] on, whatever sizes
    the elements before it needed; a pick that throws or an element that is
    refused 101 times ends the generation. *)
Theorem Vector_generate_elements (m_size : Z) (p : Params') (s : State') :
  type_min int_t <= param_Size p ->
  param_Size p + 100 <= type_max int_t ->
  0 <= m_size <= type_max int_t ->
  Vector_generate RoseNode_pick add g Container_type m_size p s
  = Vector_elements RoseNode_pick add g Container_type (Z.to_nat m_size) []
                    p s.
Proof.
  intros Hlo Hhi Hsize. unfold Vector_generate.
  apply Vector_loop_elements; try assumption; lia.
Qed.

Lemma Vector_add_attempts_grows (p : Params') (sizes : list Z) :
  (forall b x, List.length (snd (add b x))
               = if fst (add b x) then S (List.length b) else List.length b) ->
  forall (builder : list A) (s : State') (builder' : list A) (s' : State'),
    Vector_add_attempts RoseNode_pick add g Container_type p sizes builder s
    = (Returned builder', s') ->
    List.length builder' = S (List.length builder).
Proof.
  intros Hadd. induction sizes as [|size rest IH];
    intros builder s builder' s'; cbn [Vector_add_attempts];
    [discriminate|].
  destruct (pick RoseNode_pick _ p s) as [[x|e] s1]; [|discriminate].
  specialize (Hadd builder x).
  destruct (add builder x) as [[|] b1]; cbn [fst snd] in Hadd.
  - intros H. injection H as <- _. exact Hadd.
  - intros H. rewrite (IH _ _ _ _ H). f_equal. exact Hadd.
Qed.

Lemma Vector_elements_length (p : Params') (n : nat) :
  (forall b x, List.length (snd (add b x))
               = if fst (add b x) then S (List.length b) else List.length b) ->
  forall (builder : list A) (s : State') (xs : list A) (s' : State'),
    Vector_elements RoseNode_pick add g Container_type n builder p s
    = (Returned xs, s') ->
    List.length xs = (n + List.length builder)%nat.
Proof.
  intros Hadd. induction n as [|n IH]; intros builder s xs s';
    cbn [Vector_elements].
  - unfold ret. intros H. injection H as <- _. reflexivity.
  - destruct (Vector_add_attempts _ _ _ _ _ _ _ _) as [[b1|e] s1] eqn:Hone;
      [|discriminate].
    intros H. rewrite (IH _ _ _ _ H).
    rewrite (Vector_add_attempts_grows p _ Hadd _ _ _ _ Hone). lia.
Qed.

(** X5: with a builder that grows by one element when it takes one and
    keeps its size when it refuses one, the container that [vector(n, g)]
    returns has exactly [n] elements. *)
Theorem Vector_generate_exact_size (m_size : Z) (p : Params') (s : State')
        (xs : list A) (s' : State') :
  type_min int_t <= param_Size p ->
  param_Size p + 100 <= type_max int_t ->
  0 <= m_size <= type_max int_t ->
  (forall b x, List.length (snd (add b x))
               = if fst (add b x) then S (List.length b) else List.length b) ->
  Vector_generate RoseNode_pick add g Container_type m_size p s
  = (Returned xs, s') ->
  Z.of_nat (List.length xs) = m_size.
Proof.
  intros Hlo Hhi Hsize Hadd Hrun. unfold Vector_generate in Hrun.
  rewrite (Vector_loop_elements p m_size (Z.to_nat m_size) Hlo Hhi) in Hrun
    by lia.
  rewrite (Vector_elements_length p _ Hadd _ _ _ _ Hrun).
  cbn [List.length]. lia.
Qed.

Lemma Vector_elements_take_all (p : Params') (n : nat) :
  type_min int_t <= param_Size p ->
  (forall b x, fst (add b x) = true) ->
  forall (builder : list A) (s : State'),
    Vector_elements RoseNode_pick add g Container_type n builder p s
    = bind (pick_n RoseNode_pick n (resize (param_Size p) (noShrink g)))
           (fun xs => ret (add_all add xs builder)) p s.
Proof.
  intros Hlo Htake. induction n as [|n IH]; intros builder s;
    [reflexivity|].
  cbn [Vector_elements pick_n]. unfold retry_sizes.
  cbn [seq List.map Vector_add_attempts]. rewrite Z.add_0_r.
  unfold bind at 1 2.
  destruct (pick RoseNode_pick _ p s) as [[x|e] s1]; [|reflexivity].
  specialize (Htake builder x).
  destruct (add builder x) as [taken b1] eqn:Hone. cbn [fst] in Htake.
  subst taken. rewrite IH. unfold bind, ret.
  destruct (pick_n RoseNode_pick n _ p s1) as [[xs|e] s2]; [|reflexivity].
  unfold add_all. cbn [fold_left]. rewrite Hone. reflexivity.
Qed.

(** X6: with a builder that takes every element, as that of [std::vector],
    [vector(n, g)] makes exactly [n] picks, all at the current size, and
    returns the builder that was offered the picked values in order. *)
Theorem Vector_generate_take_all (m_size : Z) (p : Params') (s : State') :
  type_min int_t <= param_Size p ->
  param_Size p + 100 <= type_max int_t ->
  0 <= m_size <= type_max int_t ->
  (forall b x, fst (add b x) = true) ->
  Vector_generate RoseNode_pick add g Container_type m_size p s
  = bind (pick_n RoseNode_pick (Z.to_nat m_size)
                 (resize (param_Size p) (noShrink g)))
         (fun xs => ret (add_all add xs [])) p s.
Proof.
  intros Hlo Hhi Hsize Htake. unfold Vector_generate.
  rewrite (Vector_loop_elements p m_size (Z.to_nat m_size) Hlo Hhi) by lia.
  apply Vector_elements_take_all; assumption.
Qed.

End Vector_properties.

(** ** The collection of [std::array] *)

Lemma replace_at_length {A} (xs : list A) (i : nat) (y : A) :
  (i < List.length xs)%nat ->
  List.length (shrink.replace_at xs i y) = List.length xs.
Proof.
  intros Hi. unfold shrink.replace_at.
  rewrite length_app, length_firstn. cbn [List.length].
  rewrite length_skipn. lia.
Qed.

Lemma replace_at_next {A} (done rest : list A) (d x : A) :
  shrink.replace_at (done ++ d :: rest) (List.length done) x
  = (done ++ [x]) ++ rest.
Proof.
  unfold shrink.replace_at.
  rewrite firstn_app, Nat.sub_diag, firstn_all. cbn [firstn].
  rewrite app_nil_r, skipn_app.
  rewrite skipn_all2 by lia.
  replace (S (List.length done) - List.length done)%nat with 1%nat by lia.
  cbn [skipn app]. rewrite <- app_assoc. reflexivity.
Qed.

Lemma eachElement_length {A} (xs : list A) (per : A -> shrink.IteratorUP A)
      (c : list A) :
  In c (shrink.eachElement xs per) -> List.length c = List.length xs.
Proof.
  unfold shrink.eachElement. rewrite in_flat_map.
  intros (i & Hi & Hc). apply in_seq in Hi.
  destruct (nth_error xs i) as [x|]; [|destruct Hc].
  apply in_map_iff in Hc. destruct Hc as (y & <- & _).
  apply replace_at_length. lia.
Qed.

Section Array_properties.
Context {A : Type}.
Variable g : Generator' A.

Lemma Collection_array_loop_step (N : Z) (p : Params') (i : Z)
      (array : list A) (s : State') :
  Collection_array_loop RoseNode_pick g N p i array s
  = if c_lt size_t i size_t N
    then match pick RoseNode_pick (noShrink g) p s with
         | (Thrown e, s') => (Thrown e, s')
         | (Returned x, s') =>
             Collection_array_loop RoseNode_pick g N p (convert size_t (i + 1))
               (shrink.replace_at array (Z.to_nat (convert size_t i)) x) s'
         end
    else (Returned array, s).
Proof.
  funelim (Collection_array_loop RoseNode_pick g N p i array s);
    clear Heqcall;
    repeat match goal with
           | E : ?l = ?r |- context [?l] => rewrite E
           end;
    reflexivity.
Qed.

Lemma Collection_array_loop_pick_n (N : Z) (p : Params') (d : A) (n : nat) :
  forall (i : Z) (done : list A) (s : State'),
    0 <= i -> i + Z.of_nat n = N -> N <= type_max size_t ->
    List.length done = Z.to_nat i ->
    Collection_array_loop RoseNode_pick g N p i (done ++ repeat d n) s
    = bind (pick_n RoseNode_pick n (noShrink g))
           (fun xs => ret (done ++ xs)) p s.
Proof.
  induction n as [|n IH]; intros i done s Hi Hn HN Hdone;
    rewrite Collection_array_loop_step.
  - replace (c_lt size_t i size_t N) with false
      by (symmetry; unfold_ints; apply Z.ltb_ge; lia).
    reflexivity.
  - replace (c_lt size_t i size_t N) with true
      by (symmetry; unfold_ints; apply Z.ltb_lt; lia).
    cbn [pick_n repeat]. unfold bind at 1 2.
    destruct (pick RoseNode_pick (noShrink g) p s) as [[x|e] s'];
      [|reflexivity].
    replace (convert size_t i) with i by (unfold_ints; lia).
    replace (convert size_t (i + 1)) with (i + 1) by (unfold_ints; lia).
    rewrite <- Hdone, replace_at_next.
    rewrite IH; [| lia | lia | assumption
                 | rewrite length_app; cbn [List.length]; lia].
    unfold bind, ret.
    destruct (pick_n RoseNode_pick n (noShrink g) p s') as [[xs|e] s''];
      [|reflexivity].
    rewrite <- app_assoc. reflexivity.
Qed.

(** X7: the collection of [std::array<T, N>] makes exactly [N] non-shrinking
    picks of [g] and returns them in order: no default-constructed element
    is left in the array, and a returned array has [N] elements. *)
Theorem Collection_array_generate_picks (d : A) (N : Z) (p : Params')
        (s : State') :
  0 <= N <= type_max size_t ->
  Collection_array_generate RoseNode_pick g d N p s
  = pick_n RoseNode_pick (Z.to_nat N) (noShrink g) p s
  /\ forall xs s',
      Collection_array_generate RoseNode_pick g d N p s = (Returned xs, s') ->
      Z.of_nat (List.length xs) = N.
Proof.
  intros HN.
  assert (Hgen : Collection_array_generate RoseNode_pick g d N p s
                 = pick_n RoseNode_pick (Z.to_nat N) (noShrink g) p s).
  { unfold Collection_array_generate.
    change (repeat d (Z.to_nat N)) with ([] ++ repeat d (Z.to_nat N)).
    rewrite (Collection_array_loop_pick_n N p d (Z.to_nat N) 0 []);
      [| lia | rewrite Z2Nat.id by lia; lia | apply HN | reflexivity].
    unfold bind, ret. cbn [app].
    destruct (pick_n RoseNode_pick _ _ p s) as [[xs|e] s']; reflexivity. }
  split; [exact Hgen|].
  intros xs s' Hrun. rewrite Hgen in Hrun.
  rewrite (pick_n_length _ _ _ _ _ _ _ _ _ _ Hrun). lia.
Qed.

(** X8: a shrink of [vector(n, g)] or of the array collection has as many
    elements as the value it shrinks, and a shrink of [collection(g)] that
    has not is a candidate of [removeChunks]. *)
Theorem container_shrink_keeps_size
        {Container_copy : IsCopyConstructible (list A)}
        (removeChunks : list A -> shrink.IteratorUP (list A))
        (v c : list A) :
  In c (Vector_shrink g v) \/ In c (Collection_array_shrink g v)
  \/ (In c (Collection_shrink g removeChunks v) /\ ~ In c (removeChunks v)) ->
  List.length c = List.length v.
Proof.
  unfold Vector_shrink, Collection_array_shrink, Collection_shrink.
  destruct (is_copy_constructible (list A)).
  - intros [H | [H | [H Hnot]]]; try (eapply eachElement_length, H).
    unfold shrink.sequentially in H. apply in_app_or in H.
    destruct H as [H | H]; [contradiction|].
    eapply eachElement_length, H.
  - intros [[] | [[] | [[] _]]].
Qed.

Lemma nth_error_replace_at (xs : list A) (i : nat) (y : A) :
  (i < List.length xs)%nat ->
  nth_error (shrink.replace_at xs i y) i = Some y.
Proof.
  intros Hi. unfold shrink.replace_at.
  rewrite nth_error_app2; rewrite length_firstn; [|lia].
  replace (i - Nat.min i (List.length xs))%nat with 0%nat by lia.
  reflexivity.
Qed.

Lemma eachElement_differs (xs : list A) (per : A -> shrink.IteratorUP A) :
  (forall x, ~ In x (per x)) -> ~ In xs (shrink.eachElement xs per).
Proof.
  intros Hper Hin. unfold shrink.eachElement in Hin.
  apply in_flat_map in Hin. destruct Hin as (i & Hi & Hc).
  apply in_seq in Hi.
  destruct (nth_error xs i) as [x|] eqn:Hx; [|destruct Hc].
  apply in_map_iff in Hc. destruct Hc as (y & Heq & Hy).
  assert (Hnth : nth_error (shrink.replace_at xs i y) i = Some y)
    by (apply nth_error_replace_at; lia).
  rewrite Heq, Hx in Hnth. injection Hnth as ->.
  exact (Hper y Hy).
Qed.

Lemma TupleOf_shrink_differs {TupleT}
      (tuple : TupleOf RandomEngine RoseNode RoseTree TupleT) :
  TupleOf_proper tuple -> forall t, ~ In t (TupleOf_shrink tuple t).
Proof.
  induction tuple as [|HeadT TailT TupleT_copy head tail IH];
    intros Hproper t; [intros []|].
  destruct Hproper as [Hhead Htail]. destruct t as [h t].
  cbn [TupleOf_shrink fst snd].
  destruct (is_copy_constructible (HeadT * TailT)); [|intros []].
  unfold shrink.sequentially, shrink.map. intros Hin.
  apply in_app_or in Hin. destruct Hin as [Hin | Hin];
    apply in_map_iff in Hin; destruct Hin as (y & Heq & Hy);
    injection Heq as ->.
  - exact (Hhead h Hy).
  - exact (IH Htail t Hy).
Qed.

(** X13: when no component (or element) generator proposes the value it is
    given as a shrink of that value, neither do [tupleOf], [vector] and the
    array collection: every candidate differs from the value shrunk. *)
Theorem shrink_differs_from_value {TupleT}
        (tuple : TupleOf RandomEngine RoseNode RoseTree TupleT) (t : TupleT)
        {Container_copy : IsCopyConstructible (list A)} (v : list A) :
  TupleOf_proper tuple ->
  (forall x, ~ In x (shrink g x)) ->
  ~ In t (TupleOf_shrink tuple t)
  /\ ~ In v (Vector_shrink g v)
  /\ ~ In v (Collection_array_shrink g v).
Proof.
  intros Hproper Hg. split; [apply TupleOf_shrink_differs, Hproper|].
  unfold Vector_shrink, Collection_array_shrink.
  destruct (is_copy_constructible (list A)).
  - split; apply eachElement_differs, Hg.
  - split; intros [].
Qed.

End Array_properties.

(** ** Generators built on [arbitrary] *)

Section Arbitrary_more.
Variable kNominalSize : Z.
Variable Arbitrary : IntType -> Generator' Z.

Lemma pick_top_level {T} (h : Generator' T) (p : Params') (s : State') :
  param_CurrentNode p = None -> pick RoseNode_pick h p s = generate h p s.
Proof. intros Hnode. unfold pick. rewrite Hnode. reflexivity. Qed.

Lemma Ranged_generate_thrown (T : IntType) (lo hi : Z) (p : Params')
      (s : State') (e : Exception) (s' : State') :
  lo < hi ->
  pick RoseNode_pick
       (noShrink (resize kNominalSize (arbitrary Arbitrary (make_unsigned T))))
       p s = (Thrown e, s') ->
  generate (ranged RoseNode_pick kNominalSize Arbitrary T lo hi) p s
  = (Thrown e, s').
Proof.
  intros Hlt Hpick. cbn [generate ranged Ranged]. unfold Ranged_generate.
  replace (hi <? lo) with false by (symmetry; apply Z.ltb_ge; lia).
  replace (hi =? lo) with false by (symmetry; apply Z.eqb_neq; lia).
  unfold bind. rewrite Hpick. reflexivity.
Qed.

(** X9: outside a rose tree [oneOf(g_0, ..., g_{N-1})] draws one unsigned
    value at the nominal size, takes it modulo [N] as the id, and returns
    what the generator [g_{N-1-id}] generates under the parameters of the
    caller: the generators are numbered from the last one. *)
Theorem OneOf_generate_top_level {T} (m : Multiplexer' T) (p : Params')
        (s : State') (raw : Z) (s1 : State') :
  param_CurrentNode p = None ->
  numGenerators m <= type_max int_t ->
  generate (Arbitrary (make_unsigned int_t))
           {| param_Size := kNominalSize;
              param_NoShrink := true;
              param_CurrentNode := None |} s = (Returned raw, s1) ->
  in_range (make_unsigned int_t) raw ->
  let n := numGenerators m in
  let id := raw mod n in
  0 <= id < n
  /\ generate (oneOf RoseNode_pick kNominalSize Arbitrary m) p s
     = generate (nth (Z.to_nat (n - 1 - id)) (Multiplexer_generators m)
                     (Multiplexer_final m)) p s1.
Proof.
  intros Hnode Hn Hraw Hin n id.
  destruct (numGenerators_length m) as [_ Hpos]. fold n in Hpos, Hn.
  assert (Hid : 0 <= id < n) by (apply Z.mod_pos_bound; lia).
  split; [exact Hid|].
  cbn [generate oneOf OneOf]. fold n. unfold bind.
  rewrite pick_top_level by exact Hnode.
  cbn [generate resize Resize]. unfold scoped.
  rewrite (Ranged_generate_value
             _ _ _ RoseNode_pick kNominalSize Arbitrary int_t 0 n
             (let_Size kNominalSize p) s raw s1).
  - rewrite Z.add_0_l, Z.sub_0_r. fold id.
    rewrite pickWithId_selected, pick_top_level by exact Hnode.
    unfold Multiplexer_selected. fold n.
    replace ((0 <=? id) && (id <? n)) with true; [reflexivity|].
    symmetry. apply andb_true_intro.
    split; [apply Z.leb_le | apply Z.ltb_lt]; lia.
  - right; right; left; reflexivity.
  - unfold_ints; lia.
  - unfold_ints; lia.
  - lia.
  - rewrite pick_noShrink_resize_top_level by exact Hnode. exact Hraw.
  - exact Hin.
Qed.

(** X10: outside a rose tree a value that [nonZero] returns is not zero, one
    that [positive] returns is above zero, one that [negative] returns is
    below zero and one that [nonNegative] returns is not below zero. *)
Theorem sign_constrained_generate (T : IntType) (p : Params') (s : State')
        (x : Z) (s' : State') :
  param_CurrentNode p = None ->
  (generate (NonZero RoseNode_pick Arbitrary T) p s = (Returned x, s') ->
   x <> 0)
  /\ (generate (Positive RoseNode_pick Arbitrary T) p s = (Returned x, s') ->
      0 < x)
  /\ (generate (Negative RoseNode_pick Arbitrary T) p s = (Returned x, s') ->
      x < 0)
  /\ (generate (NonNegative RoseNode_pick Arbitrary T) p s
      = (Returned x, s') -> 0 <= x).
Proof.
  intros Hnode.
  cbn [generate NonZero Positive Negative NonNegative].
  rewrite !pick_top_level by exact Hnode.
  unfold suchThat_arbitrary. cbn [generate SuchThat].
  repeat split; intros Hrun; apply SuchThat_loop_accepted in Hrun;
    destruct Hrun as [Hpred _].
  - intros ->. discriminate Hpred.
  - apply Z.gtb_lt in Hpred. lia.
  - apply Z.ltb_lt in Hpred. exact Hpred.
  - apply Z.geb_le in Hpred. lia.
Qed.

(** X11: outside a rose tree [character<T>()] never generates the character
    of code zero. *)
Theorem Character_generate_not_zero (T : IntType) (p : Params') (s : State')
        (v : Z) (s' : State') :
  param_CurrentNode p = None ->
  standard_width T ->
  (forall s0 raw s1,
      generate (Arbitrary uint8_t)
               {| param_Size := kNominalSize;
                  param_NoShrink := true;
                  param_CurrentNode := None |} s0 = (Returned raw, s1) ->
      in_range uint8_t raw) ->
  generate (character RoseNode_pick kNominalSize Arbitrary T) p s
  = (Returned v, s') ->
  v <> 0.
Proof.
  intros Hnode Hw Htyped. cbn [generate character Character].
  rewrite pick_top_level by exact Hnode.
  cbn [generate oneOf OneOf]. unfold bind at 1.
  destruct (pick RoseNode_pick _ p s) as [[id|e] s1]; [|discriminate].
  cbn [pickWithId myId numGenerators].
  destruct (id =? 1).
  - rewrite pick_top_level by exact Hnode. cbn [generate Mapped].
    unfold bind. rewrite pick_top_level by exact Hnode.
    destruct (generate (Arbitrary uint8_t)
                       {| param_Size := kNominalSize;
                          param_NoShrink := true;
                          param_CurrentNode := None |} s1)
      as [[raw|e] s2] eqn:Hraw.
    + rewrite (Ranged_generate_value
                 _ _ _ RoseNode_pick kNominalSize Arbitrary uint8_t 1 128
                 p s1 raw s2).
      * pose proof (Z.mod_pos_bound raw (128 - 1) ltac:(lia)) as Hr.
        set (y := 1 + raw mod (128 - 1)) in *.
        assert (Hy : 1 <= y <= 127) by (unfold y; lia). clearbody y.
        unfold ret. intros H. injection H as <- _.
        destruct T as [w sg]. unfold standard_width in Hw. cbn [bits] in Hw.
        destruct Hw as [->|[->|[->| ->]]]; destruct sg; unfold_ints; lia.
      * left; reflexivity.
      * unfold_ints; lia.
      * unfold_ints; lia.
      * lia.
      * rewrite pick_noShrink_resize_top_level by exact Hnode. exact Hraw.
      * exact (Htyped _ _ _ Hraw).
    + rewrite (Ranged_generate_thrown uint8_t 1 128 p s1 e s2);
        [discriminate | lia |].
      rewrite pick_noShrink_resize_top_level by exact Hnode. exact Hraw.
  - rewrite pick_top_level by exact Hnode. cbn [generate NonZero].
    rewrite pick_top_level by exact Hnode.
    unfold suchThat_arbitrary. cbn [generate SuchThat].
    intros Hrun. apply SuchThat_loop_accepted in Hrun.
    destruct Hrun as [Hpred _]. intros ->. discriminate Hpred.
Qed.

(** ** The size of a generated collection *)

Lemma add_all_length {A} (add : list A -> A -> bool * list A) :
  (forall b x, List.length (snd (add b x)) <= S (List.length b))%nat ->
  forall (xs builder : list A),
    (List.length (add_all add xs builder)
     <= List.length xs + List.length builder)%nat.
Proof.
  intros Hadd. unfold add_all.
  induction xs as [|x xs IH]; intros builder; cbn [fold_left List.length];
    [lia|].
  specialize (IH (snd (add builder x))). specialize (Hadd builder x). lia.
Qed.

(** X12: outside a rose tree, with a builder that grows by at most one
    element for each one it is offered, a collection generated at the size
    [s >= 0] has at most [s] elements. *)
Theorem Collection_generate_at_most_size {A}
        {Container_copy : IsCopyConstructible (list A)}
        (add : list A -> A -> bool * list A) (g : Generator' A)
        (removeChunks : list A -> shrink.IteratorUP (list A))
        (p : Params') (s : State') (xs : list A) (s' : State') :
  param_CurrentNode p = None ->
  0 <= param_Size p < type_max int_t ->
  (forall raw s1,
      generate (Arbitrary size_t)
               {| param_Size := kNominalSize;
                  param_NoShrink := true;
                  param_CurrentNode := None |} s = (Returned raw, s1) ->
      in_range size_t raw) ->
  (forall b x, List.length (snd (add b x)) <= S (List.length b))%nat ->
  generate (Collection RoseNode_pick kNominalSize Arbitrary add g
                       removeChunks) p s = (Returned xs, s') ->
  Z.of_nat (List.length xs) <= param_Size p.
Proof.
  intros Hnode Hsize Htyped Hadd Hrun.
  destruct (generate (Arbitrary size_t)
                     {| param_Size := kNominalSize;
                        param_NoShrink := true;
                        param_CurrentNode := None |} s)
    as [[raw|e] s1] eqn:Hraw.
  - destruct (Collection_generate_top_level
                _ _ _ RoseNode_pick kNominalSize Arbitrary add g removeChunks
                p s raw s1 Hnode Hsize Hraw (Htyped _ _ eq_refl))
      as [Hlen Hgen].
    rewrite Hgen in Hrun. unfold bind, ret in Hrun.
    destruct (pick_n RoseNode_pick _ (noShrink g) p s1) as [[picks|e] s2]
      eqn:Hpicks; [|discriminate].
    injection Hrun as <- _.
    pose proof (add_all_length add Hadd picks []) as Hbound.
    rewrite (pick_n_length _ _ _ _ _ _ _ _ _ _ Hpicks) in Hbound.
    cbn [List.length] in Hbound. lia.
  - revert Hrun. cbn [generate Collection]. unfold Collection_generate.
    unfold bind at 1. unfold currentSize at 1. unfold bind at 1.
    rewrite pick_top_level by exact Hnode.
    rewrite (Ranged_generate_thrown size_t _ _ p s e s1);
      [discriminate | |].
    + replace (convert size_t 0) with 0 by reflexivity.
      unfold_ints; lia.
    + rewrite pick_noShrink_resize_top_level by exact Hnode. exact Hraw.
Qed.

End Arbitrary_more.

End More_properties.

(** * Examples *)

(** [suchThat] at size 7 with a generator that returns its size. *)
Lemma SuchThat_generate_attempts_witness :
  generate (SuchThat no_node_pick sizeProbe (fun x => 107 <=? x))
           (top_level 7) (seeded 0)
  = SuchThat_attempts no_node_pick sizeProbe (fun x => 107 <=? x)
                      (top_level 7) (retry_sizes 7) (seeded 0).
Proof.
  refine (proj1 (SuchThat_generate_attempts
                   Z Empty_set unit no_node_pick sizeProbe
                   (fun x => 107 <=? x) (top_level 7) (seeded 0) _ _));
    cbn; unfold_ints; lia.
Defined.

(** C1 as stated fails: a predicate that rejects the draws at the first 100
    sizes does not make [suchThat] give up, the value of the 101st draw is
    returned; and with a predicate that is always false the generator gives
    up only when 101 draws have been made and rejected. *)
Lemma SuchThat_makes_101_draws :
  List.forallb (fun size => negb (107 <=? size)) (firstn 100 (retry_sizes 7))
  = true
  /\ generate (SuchThat no_node_pick sizeProbe (fun x => 107 <=? x))
              (top_level 7) (seeded 0)
     = (Returned 107, seeded 0)
  /\ generate (SuchThat no_node_pick (lcg_Arbitrary int_t) (fun _ => false))
              (top_level 7) (seeded 0)
     = (Thrown gave_up, seeded (Nat.iter 101 lcg_next 0))
  /\ Nat.iter 100 lcg_next 0 <> Nat.iter 101 lcg_next 0.
Proof.
  split; [|split; [|split]]; try (vm_compute; reflexivity).
  vm_compute. discriminate.
Qed.

(** [ranged<int>(-5, 5)] with the engine in state 42. *)
Lemma ranged_generate_interval_witness :
  generate (ranged no_node_pick 100 lcg_Arbitrary int_t (-5) 5)
           (top_level 10) (seeded 42)
  = (Returned (-3), seeded (lcg_next 42)).
Proof.
  destruct (ranged_generate_interval
              Z Empty_set unit no_node_pick 100 lcg_Arbitrary int_t (-5) 5
              (top_level 10) (seeded 42))
    as (_ & Hvalue & _).
  - right; right; left; reflexivity.
  - unfold_ints; lia.
  - unfold_ints; lia.
  - intros raw s' H. injection H as <- _. unfold_ints; cbn; lia.
  - exact (Hvalue eq_refl 42 (seeded (lcg_next 42)) eq_refl).
Defined.

(** A vector of constants generated at size 2: with the engine in state 7
    the length is [7 mod 3], with the engine in state 0 the vector is
    empty. *)
Lemma Collection_generate_length_witness :
  generate (Collection no_node_pick 100 lcg_Arbitrary
                       (Container_copy := copyable (list Z))
                       vector_add (constant 7) removeChunks_whole)
           (top_level 2) (seeded 7)
  = (Returned [7], seeded (lcg_next 7))
  /\ generate (Collection no_node_pick 100 lcg_Arbitrary
                          (Container_copy := copyable (list Z))
                          vector_add (constant 7) removeChunks_whole)
              (top_level 2) (seeded 0)
     = (Returned [], seeded (lcg_next 0)).
Proof.
  split.
  - destruct (Collection_generate_length
                Z Empty_set unit no_node_pick 100 lcg_Arbitrary
                (Container_copy := copyable (list Z))
                vector_add (constant 7) removeChunks_whole
                (top_level 2) (seeded 7) 7 (seeded (lcg_next 7)))
      as (_ & _ & Hpicks & _).
    + reflexivity.
    + unfold_ints; cbn; lia.
    + reflexivity.
    + unfold_ints; lia.
    + exact (proj2 (Hpicks [7] (seeded (lcg_next 7)) eq_refl)).
  - destruct (Collection_generate_length
                Z Empty_set unit no_node_pick 100 lcg_Arbitrary
                (Container_copy := copyable (list Z))
                vector_add (constant 7) removeChunks_whole
                (top_level 2) (seeded 0) 0 (seeded (lcg_next 0)))
      as (_ & _ & _ & Hempty).
    + reflexivity.
    + unfold_ints; cbn; lia.
    + reflexivity.
    + unfold_ints; lia.
    + exact (Hempty eq_refl).
Defined.

(** C4 as stated fails: at size 2 no state of the engine makes the generated
    vector have the length 3, the upper end of [[0, size + 1]]. *)
Lemma Collection_length_below_size_plus_one :
  ~ exists (e : Z) (xs : list Z) (s' : State Z unit),
      generate (Collection no_node_pick 100 lcg_Arbitrary
                           (Container_copy := copyable (list Z))
                           vector_add (constant 7) removeChunks_whole)
               (top_level 2) (seeded e)
      = (Returned xs, s')
      /\ List.length xs = 3%nat.
Proof.
  intros (e & xs & s' & Hgen & Hlen).
  destruct (Collection_generate_top_level
              Z Empty_set unit no_node_pick 100 lcg_Arbitrary
              (Container_copy := copyable (list Z))
              vector_add (constant 7) removeChunks_whole
              (top_level 2) (seeded e) (convert size_t e)
              (seeded (lcg_next e)))
    as (Hrange & Hcollection).
  - reflexivity.
  - unfold_ints; cbn; lia.
  - reflexivity.
  - unfold_ints; lia.
  - rewrite Hcollection in Hgen. clear Hcollection.
    cbn [param_Size top_level] in Hrange, Hgen.
    assert (Hcases : Z.to_nat (convert size_t e mod (2 + 1)) = 0%nat
                     \/ Z.to_nat (convert size_t e mod (2 + 1)) = 1%nat
                     \/ Z.to_nat (convert size_t e mod (2 + 1)) = 2%nat)
      by lia.
    destruct Hcases as [Hn | [Hn | Hn]]; rewrite Hn in Hgen;
      injection Hgen as <- _; discriminate Hlen.
Qed.

(** The shrinks of the vector [[1; 2]] of integers that shrink to zero. *)
Lemma Collection_shrink_sequence_witness :
  shrink (Collection no_node_pick 100 lcg_Arbitrary
                     (Container_copy := copyable (list Z))
                     vector_add towards_zero removeChunks_whole) [1; 2]
  = [[]; [0; 2]; [1; 0]].
Proof.
  rewrite (proj1 (Collection_shrink_sequence
                    Z Empty_set unit no_node_pick 100 lcg_Arbitrary
                    (Container_copy := copyable (list Z))
                    vector_add towards_zero removeChunks_whole [1; 2]
                    eq_refl)).
  reflexivity.
Defined.

(** The shrinks of the tuple [(1, 0, 3)]: component 0, then component 2;
    component 1 has none. *)
Lemma TupleOf_shrink_by_component_witness :
  TupleOf_shrink
    (TupleOf_cons (TupleT_copy := copyable _) towards_zero
       (TupleOf_cons (TupleT_copy := copyable _) towards_zero
          (TupleOf_cons (TupleT_copy := copyable _) towards_zero
             TupleOf_nil)))
    (1, (0, (3, tt)))
  = [(0, (0, (3, tt))); (1, (0, (0, tt)))].
Proof.
  rewrite (proj1 (TupleOf_shrink_by_component
                    Z Empty_set unit
                    (TupleOf_cons (TupleT_copy := copyable _) towards_zero
                       (TupleOf_cons (TupleT_copy := copyable _) towards_zero
                          (TupleOf_cons (TupleT_copy := copyable _)
                             towards_zero TupleOf_nil)))
                    (1, (0, (3, tt))) eq_refl)).
  reflexivity.
Defined.

(** A tuple and a vector of a move-only type: the element has a shrink, the
    tuple and the containers have none. *)
Lemma shrink_not_copy_constructible_witness :
  shrink towards_zero 5 = [0]
  /\ TupleOf_shrink
       (TupleOf_cons (TupleT_copy := move_only _) towards_zero TupleOf_nil)
       (5, tt) = []
  /\ Vector_shrink (Container_copy := move_only (list Z)) towards_zero [5]
     = []
  /\ Collection_shrink (Container_copy := move_only (list Z)) towards_zero
                       removeChunks_whole [5] = []
  /\ Collection_array_shrink (Container_copy := move_only (list Z))
                             towards_zero [5] = [].
Proof.
  split; [reflexivity|].
  apply (shrink_not_copy_constructible
           Z Empty_set unit
           (TupleOf_cons (TupleT_copy := move_only _) towards_zero
              TupleOf_nil)
           (5, tt) (move_only (list Z)) towards_zero removeChunks_whole [5]);
    reflexivity.
Defined.

(** [scale(0.5, g)] at size 3: the product [1.5] becomes the size 1. *)
Lemma scale_generate_truncates_witness :
  generate (scale one_half sizeProbe) (top_level 3) (seeded 0)
  = (Returned 1, seeded 0)
  /\ integer_part (double_mul (double_of_int 3) one_half) 1.
Proof.
  destruct (scale_generate_truncates
              Z Empty_set unit one_half sizeProbe (top_level 3) (seeded 0) 1)
    as (Hgen & Hpart & _).
  - reflexivity.
  - unfold_ints; lia.
  - split; [rewrite Hgen; reflexivity | exact Hpart].
Defined.

(** C9 as stated fails: [scale(0.75, g)] at size 1 runs [g] at size 0;
    the product is [0.75], whose nearest integer is 1 and not 0. *)
Lemma scale_does_not_round_to_nearest :
  generate (scale three_quarters sizeProbe) (top_level 1) (seeded 0)
  = (Returned 0, seeded 0)
  /\ double_num (double_mul (double_of_int 1) three_quarters) * 4
     = 3 * double_den (double_mul (double_of_int 1) three_quarters)
  /\ nearest_integer (double_mul (double_of_int 1) three_quarters) 1
  /\ ~ nearest_integer (double_mul (double_of_int 1) three_quarters) 0.
Proof.
  assert (Hproduct : double_mul (double_of_int 1) three_quarters
                     = S754_finite false 6755399441055744 (-53))
    by (vm_compute; reflexivity).
  rewrite Hproduct. unfold nearest_integer, double_num, double_den.
  cbn [Z.leb Z.compare Z.opp].
  change (2 ^ 53) with 9007199254740992.
  split; [vm_compute; reflexivity|]. split; [reflexivity|]. split.
  - intros k. lia.
  - intros H. specialize (H 1). lia.
Qed.


(** [suchThat] at size 7 returns the size 107, which its predicate takes. *)
Lemma SuchThat_returns_accepted_witness :
  (107 <=? 107) = true
  /\ exists size s0,
      pick no_node_pick (noShrink (resize size sizeProbe)) (top_level 7) s0
      = (Returned 107, seeded 0).
Proof.
  apply (SuchThat_returns_accepted
           Z Empty_set unit no_node_pick sizeProbe (fun x => 107 <=? x)
           (top_level 7) (seeded 0) 107 (seeded 0)).
  vm_compute. reflexivity.
Defined.

(** The give-up of [suchThat] taken by a handler of [GenerationFailure],
    with a catcher that returns [-1] and one that throws again. *)
Lemma Rescue_takes_exceptions_witness :
  generate (rescue is_GenerationFailure
                   (SuchThat no_node_pick sizeProbe (fun _ => false))
                   (fun _ => ret (-1)))
           (top_level 7) (seeded 0)
  = (Returned (-1), seeded 0)
  /\ generate (rescue is_GenerationFailure
                      (SuchThat no_node_pick sizeProbe (fun _ => false))
                      (fun e => throw (OtherException "again")))
              (top_level 7) (seeded 0)
     = (Thrown (OtherException "again"), seeded 0)
  /\ (forall e s',
         generate (rescue is_GenerationFailure
                          (SuchThat no_node_pick sizeProbe (fun _ => false))
                          (fun _ => ret (-1)))
                  (top_level 7) (seeded 0)
         = (Thrown e, s') ->
         is_GenerationFailure e = false).
Proof.
  assert (Hrun : generate (SuchThat no_node_pick sizeProbe (fun _ => false))
                          (top_level 7) (seeded 0)
                 = (Thrown gave_up, seeded 0))
    by (vm_compute; reflexivity).
  destruct (Rescue_takes_exceptions
              Z Empty_set unit is_GenerationFailure
              (SuchThat no_node_pick sizeProbe (fun _ => false))
              (fun _ => ret (-1)) (top_level 7) (seeded 0))
    as (_ & Hthrown & Hnever).
  destruct (Rescue_takes_exceptions
              Z Empty_set unit is_GenerationFailure
              (SuchThat no_node_pick sizeProbe (fun _ => false))
              (fun e => throw (OtherException "again"))
              (top_level 7) (seeded 0))
    as (_ & Hagain & _).
  split; [|split].
  - rewrite (Hthrown gave_up (seeded 0) Hrun). reflexivity.
  - rewrite (Hagain gave_up (seeded 0) Hrun). reflexivity.
  - apply Hnever. intros e p0 s0. exists (-1), s0. reflexivity.
Defined.

(** Three sizes added to a set at size 7: the second element needs two
    attempts and the third three, each from size 7 on. *)
Lemma Vector_generate_elements_witness :
  Vector_generate no_node_pick set_add sizeProbe "std::set<int>" 3
                  (top_level 7) (seeded 0)
  = (Returned [7; 8; 9], seeded 0).
Proof.
  rewrite (Vector_generate_elements
             Z Empty_set unit no_node_pick set_add sizeProbe "std::set<int>"
             3 (top_level 7) (seeded 0));
    [vm_compute; reflexivity | | |]; cbn; unfold_ints; lia.
Defined.

Lemma Vector_generate_exact_size_witness :
  Z.of_nat (List.length [7; 8; 9]) = 3.
Proof.
  apply (Vector_generate_exact_size
           Z Empty_set unit no_node_pick set_add sizeProbe "std::set<int>"
           3 (top_level 7) (seeded 0) [7; 8; 9] (seeded 0)).
  - cbn; unfold_ints; lia.
  - cbn; unfold_ints; lia.
  - unfold_ints; lia.
  - intros b x. unfold set_add.
    destruct (List.existsb (Z.eqb x) b); cbn [fst snd]; [reflexivity|].
    rewrite length_app. cbn [List.length]. lia.
  - unfold Vector_generate.
    rewrite (Vector_loop_elements
               Z Empty_set unit no_node_pick set_add sizeProbe
               "std::set<int>" (top_level 7) 3 3);
      [vm_compute; reflexivity | | | | |]; cbn; unfold_ints; lia.
Defined.

(** Three bytes added to a [std::vector]. *)
Lemma Vector_generate_take_all_witness :
  Vector_generate no_node_pick vector_add (lcg_Arbitrary uint8_t)
                  "std::vector<unsigned char>" 3 (top_level 7) (seeded 5)
  = (Returned [5; 48; 191], seeded 15135621383883345378).
Proof.
  rewrite (Vector_generate_take_all
             Z Empty_set unit no_node_pick vector_add (lcg_Arbitrary uint8_t)
             "std::vector<unsigned char>" 3 (top_level 7) (seeded 5));
    [vm_compute; reflexivity | | | |]; try reflexivity;
    cbn; unfold_ints; lia.
Defined.

(** An array of three bytes. *)
Lemma Collection_array_generate_picks_witness :
  Collection_array_generate no_node_pick (lcg_Arbitrary uint8_t) 0 3
                            (top_level 7) (seeded 5)
  = (Returned [5; 48; 191], seeded 15135621383883345378).
Proof.
  assert (HN : 0 <= 3 <= type_max size_t) by (unfold_ints; lia).
  rewrite (proj1 (Collection_array_generate_picks
                    Z Empty_set unit no_node_pick (lcg_Arbitrary uint8_t) 0 3
                    (top_level 7) (seeded 5) HN)).
  vm_compute. reflexivity.
Defined.

Lemma container_shrink_keeps_size_witness :
  In [0; 2] (Vector_shrink (Container_copy := copyable (list Z))
                           towards_zero [1; 2])
  /\ List.length [0; 2] = List.length [1; 2].
Proof.
  assert (Hin : In [0; 2] (Vector_shrink (Container_copy := copyable (list Z))
                                         towards_zero [1; 2]))
    by (left; reflexivity).
  split; [exact Hin|].
  apply (container_shrink_keeps_size
           Z Empty_set unit towards_zero
           (Container_copy := copyable (list Z)) removeChunks_whole
           [1; 2] [0; 2]).
  left. exact Hin.
Defined.

(** [oneOf] of three constants with the engine in state 42: the id is
    [42 mod 3 = 0], which is the last generator. *)
Lemma OneOf_generate_top_level_witness :
  generate (oneOf no_node_pick 100 lcg_Arbitrary
                  (Multiplexer_more (constant 10)
                     (Multiplexer_more (constant 20)
                        (Multiplexer_last (constant 30)))))
           (top_level 7) (seeded 42)
  = (Returned 30, seeded (lcg_next 42)).
Proof.
  destruct (OneOf_generate_top_level
              Z Empty_set unit no_node_pick 100 lcg_Arbitrary
              (Multiplexer_more (constant 10)
                 (Multiplexer_more (constant 20)
                    (Multiplexer_last (constant 30))))
              (top_level 7) (seeded 42) 42 (seeded (lcg_next 42)))
    as [_ Hgen].
  - reflexivity.
  - cbn; unfold_ints; lia.
  - reflexivity.
  - unfold_ints; lia.
  - rewrite Hgen. reflexivity.
Defined.

Lemma sign_constrained_generate_witness :
  generate (NonZero no_node_pick lcg_Arbitrary int_t) (top_level 7) (seeded 0)
  = (Returned (-144211633), seeded 1876011003808476466)
  /\ -144211633 <> 0.
Proof.
  assert (Hrun : generate (NonZero no_node_pick lcg_Arbitrary int_t)
                          (top_level 7) (seeded 0)
                 = (Returned (-144211633), seeded 1876011003808476466))
    by (vm_compute; reflexivity).
  split; [exact Hrun|].
  exact (proj1 (sign_constrained_generate
                  Z Empty_set unit no_node_pick lcg_Arbitrary int_t
                  (top_level 7) (seeded 0) (-144211633)
                  (seeded 1876011003808476466) eq_refl) Hrun).
Defined.

Lemma Character_generate_not_zero_witness :
  generate (character no_node_pick 100 lcg_Arbitrary
                      {| bits := 8; is_signed := true |})
           (top_level 7) (seeded 0)
  = (Returned 79, seeded 1876011003808476466)
  /\ 79 <> 0.
Proof.
  assert (Hrun : generate (character no_node_pick 100 lcg_Arbitrary
                                     {| bits := 8; is_signed := true |})
                          (top_level 7) (seeded 0)
                 = (Returned 79, seeded 1876011003808476466))
    by (vm_compute; reflexivity).
  split; [exact Hrun|].
  apply (Character_generate_not_zero
           Z Empty_set unit no_node_pick 100 lcg_Arbitrary
           {| bits := 8; is_signed := true |} (top_level 7) (seeded 0) 79
           (seeded 1876011003808476466)).
  - reflexivity.
  - left; reflexivity.
  - intros s0 raw s1 H. injection H as <- _. unfold_ints; lia.
  - exact Hrun.
Defined.

Lemma Collection_generate_at_most_size_witness :
  generate (Collection no_node_pick 100 lcg_Arbitrary
                       (Container_copy := copyable (list Z))
                       vector_add (constant 7) removeChunks_whole)
           (top_level 2) (seeded 7)
  = (Returned [7], seeded (lcg_next 7))
  /\ Z.of_nat (List.length [7]) <= 2.
Proof.
  assert (Hrun : generate (Collection no_node_pick 100 lcg_Arbitrary
                                      (Container_copy := copyable (list Z))
                                      vector_add (constant 7)
                                      removeChunks_whole)
                          (top_level 2) (seeded 7)
                 = (Returned [7], seeded (lcg_next 7))).
  { destruct (Collection_generate_top_level
                Z Empty_set unit no_node_pick 100 lcg_Arbitrary
                (Container_copy := copyable (list Z))
                vector_add (constant 7) removeChunks_whole
                (top_level 2) (seeded 7) 7 (seeded (lcg_next 7)))
      as [_ Hgen].
    - reflexivity.
    - unfold_ints; cbn; lia.
    - reflexivity.
    - unfold_ints; lia.
    - rewrite Hgen. reflexivity. }
  split; [exact Hrun|].
  apply (Collection_generate_at_most_size
           Z Empty_set unit no_node_pick 100 lcg_Arbitrary
           (Container_copy := copyable (list Z))
           vector_add (constant 7) removeChunks_whole
           (top_level 2) (seeded 7) [7] (seeded (lcg_next 7))).
  - reflexivity.
  - unfold_ints; cbn; lia.
  - intros raw s1 H. injection H as <- _. unfold_ints; lia.
  - intros b x. unfold vector_add. cbn [snd]. rewrite length_app.
    cbn [List.length]. lia.
  - exact Hrun.
Defined.

Lemma shrink_differs_from_value_witness :
  ~ In (1, (0, tt))
       (TupleOf_shrink
          (TupleOf_cons (TupleT_copy := copyable _) towards_zero
             (TupleOf_cons (TupleT_copy := copyable _) towards_zero
                TupleOf_nil))
          (1, (0, tt)))
  /\ ~ In [1; 2] (Vector_shrink (Container_copy := copyable (list Z))
                                towards_zero [1; 2])
  /\ ~ In [1; 2] (Collection_array_shrink
                    (Container_copy := copyable (list Z))
                    towards_zero [1; 2]).
Proof.
  assert (Hzero : forall x, ~ In x (shrink towards_zero x)).
  { intros x. cbn [shrink towards_zero].
    destruct (x =? 0) eqn:Hx; [intros []|].
    intros [H | []]. subst x. discriminate Hx. }
  apply (shrink_differs_from_value
           Z Empty_set unit towards_zero
           (TupleOf_cons (TupleT_copy := copyable _) towards_zero
              (TupleOf_cons (TupleT_copy := copyable _) towards_zero
                 TupleOf_nil))
           (1, (0, tt)) (Container_copy := copyable (list Z)) [1; 2]).
  - cbn [TupleOf_proper]. repeat split; exact Hzero.
  - exact Hzero.
Defined.
